(** * A shallow embedding of [automation.py]

    The program is a loop that fetches news items, turns each one into a
    narrated video segment, writes a playlist and pushes it to a live
    endpoint.  Every stage is a call into an external service or binary, so
    the embedding is a small state-and-exception monad that records each
    interaction with the outside world as an event together with the answer
    the world gave.

    Modelling decisions:
    - a Python [str] is a [string], one [ascii] per character (characters
      above U+00FF are outside the model);
    - the working directory is a finite map from file names to contents
      (regular files only);
    - the outside world is an [Env] of oracles; each oracle sees the trace of
      all earlier events, so it may answer differently on every call;
    - an exception is its message;
    - [await] on the single task of the program is sequencing, and
      [asyncio.sleep] is an event;
    - the output of a child process is text already: the decoding of its
      bytes is not modelled. *)

From Stdlib Require Import ZArith NArith List String Ascii Lia Bool Sorted.
From stdpp Require Import base gmap strings pretty list.

(** ** Python string operations *)

Module PyStr.
Local Open Scope string_scope.

Definition nl : string := String (ascii_of_nat 10) "".
Definition dquote : ascii := ascii_of_nat 34.
Definition squote : ascii := ascii_of_nat 39.

(** [str.isspace] on a single character below U+0100. *)
Definition is_space (c : ascii) : bool :=
  let n := nat_of_ascii c in
  (((9 <=? n) && (n <=? 13)) || ((28 <=? n) && (n <=? 32))
   || (n =? 133) || (n =? 160))%nat.

(** Truth value of a [str]: non-empty. *)
Definition truthy (s : string) : bool :=
  match s with EmptyString => false | String _ _ => true end.

(** Truth value of a value that is a [str] or [None]. *)
Definition truthy_opt (o : option string) : bool :=
  match o with Some s => truthy s | None => false end.

(** [a or b] on strings. *)
Definition or_else (a b : string) : string := if truthy a then a else b.

(** [s.replace(c, '')] for a one-character [c]. *)
Fixpoint remove_char (c : ascii) (s : string) : string :=
  match s with
  | EmptyString => EmptyString
  | String a s' =>
      if Ascii.eqb a c then remove_char c s' else String a (remove_char c s')
  end.

(** [s.replace(c, d)] for one-character [c] and [d]. *)
Fixpoint replace_char (c d : ascii) (s : string) : string :=
  match s with
  | EmptyString => EmptyString
  | String a s' =>
      String (if Ascii.eqb a c then d else a) (replace_char c d s')
  end.

Fixpoint lstrip (s : string) : string :=
  match s with
  | EmptyString => EmptyString
  | String a s' => if is_space a then lstrip s' else s
  end.

Fixpoint rstrip (s : string) : string :=
  match s with
  | EmptyString => EmptyString
  | String a s' =>
      match rstrip s' with
      | EmptyString => if is_space a then EmptyString else String a EmptyString
      | r => String a r
      end
  end.

(** [s.strip()] *)
Definition strip (s : string) : string := rstrip (lstrip s).

(** [s.split()]: the maximal runs of non-whitespace characters.  [cur] is
    the word being read, in reading order. *)
Fixpoint split_from (cur : string) (s : string) : list string :=
  match s with
  | EmptyString => if truthy cur then [cur] else []
  | String a s' =>
      if is_space a
      then (if truthy cur then cur :: split_from EmptyString s'
            else split_from EmptyString s')
      else split_from (cur +:+ String a EmptyString) s'
  end.

Definition split (s : string) : list string := split_from EmptyString s.

(** [sep.join(l)] *)
Fixpoint join (sep : string) (l : list string) : string :=
  match l with
  | [] => EmptyString
  | [w] => w
  | w :: l' => w +:+ sep +:+ join sep l'
  end.

(** [sub in s] *)
Fixpoint contains (sub s : string) : bool :=
  String.prefix sub s ||
  match s with
  | EmptyString => false
  | String _ s' => contains sub s'
  end.

(** [s.endswith(suf)] *)
Definition endswith (s suf : string) : bool :=
  (String.length suf <=? String.length s)%nat
  && String.eqb
       (String.substring (String.length s - String.length suf)
          (String.length suf) s)
       suf.

(** [s.endswith((a, b, ...))] *)
Definition endswith_any (s : string) (sufs : list string) : bool :=
  existsb (endswith s) sufs.

End PyStr.

(** ** Data *)

Definition exn := string.

Inductive res (A : Type) : Type :=
| Ok (a : A)
| Raise (e : exn).
Arguments Ok {A} a.
Arguments Raise {A} e.

(** One [links] element of a feed entry: its [type] and [href] keys. *)
Record link := { link_type : option string; link_href : option string }.

(** A feed entry as the parser hands it over.  An attribute that is [None]
    here is absent, and reading it raises; an attachment is its [url] key, if
    it has one. *)
Record entry := {
  e_media_content : option (list (option string));
  e_links : option (list link);
  e_title : option string;
  e_summary : option string
}.

(** The dictionaries that [get_news] appends to [articles]. *)
Record news_item := { title : string; summary : string; image : string }.

Inductive engine := EdgeTZ | EdgeKE | GTTS.

Definition voice (g : engine) : string :=
  match g with
  | EdgeTZ => "sw-TZ-LughaNeural"
  | EdgeKE => "sw-KE-ZuriNeural"
  | GTTS => "sw"
  end.

(** Every interaction with the outside world, with the world's answer. *)
Inductive event :=
| EPrint (msg : string)
| EFeedParse (url : string) (r : res (list entry))
| ETimeTime (now : string)
| ETranslate (text : string) (r : res (option string))
| ETts (g : engine) (text outfile : string) (r : res unit)
| EHttpGet (url : string) (r : res string)
| EWrite (path data : string) (r : res unit)
| ERemove (path : string) (r : res unit)
| ESubprocess (argv : list string) (r : res (Z * string * string))
| ESleep (secs : nat).

Abbreviation fsys := (gmap string string).

(** The outside world.  Every oracle takes the trace of earlier events. *)
Record Env := {
  (** [os.getenv("YOUTUBE_STREAM_KEY")], read once at import time *)
  STREAM_KEY : option string;
  (** [feedparser.parse(url).entries] *)
  feedparser_parse : list event -> string -> res (list entry);
  (** [str(time.time())] *)
  time_time : list event -> string;
  (** [GoogleTranslator(source='auto', target='sw').translate(text)] *)
  translate : list event -> string -> res (option string);
  (** [edge_tts.Communicate(text, voice).save(outfile)] and
      [gTTS(text=text, lang='sw').save(outfile)]: may write any file *)
  tts_save : list event -> engine -> string -> string -> fsys -> res unit * fsys;
  (** [requests.get(url, timeout=20).content] *)
  requests_get : list event -> string -> res string;
  (** [subprocess.run(argv)]: return code, standard output and standard
      error of the child, which may write any file; [Raise] when the child
      cannot be started *)
  subprocess_run :
    list event -> list string -> fsys -> res (Z * string * string) * fsys;
  (** an operating-system error on writing a file *)
  write_error : list event -> string -> option exn;
  (** an operating-system error on removing a file *)
  remove_error : list event -> string -> option exn
}.

(** ** The monad: trace so far and state in, result, state and new events out *)

Definition M (S A : Type) : Type :=
  list event -> S -> res A * S * list event.

Definition ret {S A} (a : A) : M S A := fun _ s => (Ok a, s, []).

Definition raise {S A} (e : exn) : M S A := fun _ s => (Raise e, s, []).

Definition bind {S A B} (m : M S A) (k : A -> M S B) : M S B :=
  fun h s =>
    match m h s with
    | (Ok a, s1, d1) =>
        let '(r, s2, d2) := k a (h ++ d1) s1 in (r, s2, d1 ++ d2)
    | (Raise e, s1, d1) => (Raise e, s1, d1)
    end.

(** [try: m  except Exception as e: handler e] *)
Definition try_except {S A} (m : M S A) (handler : exn -> M S A) : M S A :=
  fun h s =>
    match m h s with
    | (Ok a, s1, d1) => (Ok a, s1, d1)
    | (Raise e, s1, d1) =>
        let '(r, s2, d2) := handler e (h ++ d1) s1 in (r, s2, d1 ++ d2)
    end.

#[global] Instance M_ret {S} : MRet (M S) := fun A a => ret a.
#[global] Instance M_bind {S} : MBind (M S) := fun A B k m => bind m k.

Definition emit {S} (e : event) : M S unit := fun _ s => (Ok tt, s, [e]).

Definition print {S} (msg : string) : M S unit := emit (EPrint msg).

Definition get {S} : M S S := fun _ s => (Ok s, s, []).

Definition modify {S} (f : S -> S) : M S unit := fun _ s => (Ok tt, f s, []).

(** Run a computation on a local variable [init]; the outer state is not
    touched, and the final value of the local variable is handed back. *)
Definition with_local {S T A} (init : T) (m : M T A) : M S (A * T) :=
  fun h s =>
    match m h init with
    | (Ok a, t, d) => (Ok (a, t), s, d)
    | (Raise e, _, d) => (Raise e, s, d)
    end.

(** The result part, the state part and the events of a run. *)
Definition result_of {S A} (x : res A * S * list event) : res A := fst (fst x).
Definition state_of {S A} (x : res A * S * list event) : S := snd (fst x).
Definition events_of {S A} (x : res A * S * list event) : list event := snd x.

(** Lift a pure computation that may raise. *)
Definition lift {S A} (r : res A) : M S A :=
  fun _ s => (r, s, []).

(** [for x in l: body x] *)
Fixpoint for_each {S A} (l : list A) (body : A -> M S unit) : M S unit :=
  match l with
  | [] => mret tt
  | x :: l' => body x;; for_each l' body
  end.

(** The loop of [while True: body] cut off after [fuel] rounds: it leaves
    only by an exception, and [Running] says that it was still going. *)
Inductive status := Returned | Running.

Fixpoint while_true {S} (fuel : nat) (body : M S unit) : M S status :=
  match fuel with
  | O => mret Running
  | S n => body;; while_true n body
  end.

(** ** The working directory *)

(** [os.path.exists(p) and os.path.getsize(p) > n] *)
Definition exists_and_larger (fs : fsys) (p : string) (n : nat) : bool :=
  match fs !! p with
  | Some data => (n <? String.length data)%nat
  | None => false
  end.

(** [os.listdir()] *)
Definition listdir (fs : fsys) : list string := (map_to_list fs).*1.

(** ** The program *)

Definition YOUTUBE_URL : string := "rtmp://a.rtmp.youtube.com/live2/".

Definition RSS_FEEDS : list string :=
  [ "https://www.bbc.com/swahili/index.xml";
    "https://www.dw.com/sw/habari/rss-30740-swahili" ].

Section Program.

Variable env : Env.

(** *** Calls into the outside world *)

Definition feedparser_call {S} (url : string) : M S (list entry) :=
  fun h s =>
    let r := feedparser_parse env h url in (r, s, [EFeedParse url r]).

Definition time_call {S} : M S string :=
  fun h s => let now := time_time env h in (Ok now, s, [ETimeTime now]).

Definition translate_call {S} (text : string) : M S (option string) :=
  fun h s => let r := translate env h text in (r, s, [ETranslate text r]).

Definition tts_call (g : engine) (text outfile : string) : M fsys unit :=
  fun h fs =>
    let '(r, fs') := tts_save env h g text outfile fs in
    (r, fs', [ETts g text outfile r]).

Definition requests_call {S} (url : string) : M S string :=
  fun h s => let r := requests_get env h url in (r, s, [EHttpGet url r]).

Definition subprocess_call (argv : list string)
  : M fsys (Z * string * string) :=
  fun h fs =>
    let '(r, fs') := subprocess_run env h argv fs in
    (r, fs', [ESubprocess argv r]).

(** [with open(path, 'w') as f: f.write(data)] *)
Definition write_file (path data : string) : M fsys unit :=
  fun h fs =>
    match write_error env h path with
    | Some e => (Raise e, fs, [EWrite path data (Raise e)])
    | None => (Ok tt, <[path := data]> fs, [EWrite path data (Ok tt)])
    end.

(** [os.remove(path)] *)
Definition os_remove (path : string) : M fsys unit :=
  fun h fs =>
    match remove_error env h path with
    | Some e => (Raise e, fs, [ERemove path (Raise e)])
    | None =>
        match fs !! path with
        | Some _ => (Ok tt, delete path fs, [ERemove path (Ok tt)])
        | None =>
            let e := "FileNotFoundError: " +:+ path in
            (Raise e, fs, [ERemove path (Raise e)])
        end
    end.

Definition sleep {S} (secs : nat) : M S unit := emit (ESleep secs).

(** *** [get_news] *)

(** Lines 28-34: the image of an entry, before the placeholder. *)
Definition pick_image (e : entry) : res (option string) :=
  match e_media_content e with
  | Some attachments =>
      match attachments with
      | [] => Raise "IndexError: list index out of range"
      | None :: _ => Raise "KeyError: 'url'"
      | Some u :: _ => Ok (Some u)
      end
  | None =>
      match e_links e with
      | Some ls =>
          Ok (fold_left
                (fun img_url l =>
                   if PyStr.contains "image" (default "" (link_type l))
                   then link_href l else img_url)
                ls None)
      | None => Ok None
      end
  end.

(** [entry.name]: raises when the entry has no such attribute. *)
Definition attr {S} (name : string) (v : option string) : M S string :=
  match v with
  | Some s => mret s
  | None => raise ("AttributeError: " +:+ name)
  end.

(** Lines 28-43: the body of the loop over the entries of one feed.  The
    state is the list [articles]. *)
Definition extract_entry (e : entry) : M (list news_item) unit :=
  img_url ← lift (pick_image e);
  img_url ← (if PyStr.truthy_opt img_url then mret (default "" img_url)
             else now ← time_call;
                  mret ("https://picsum.photos/1920/1080?random=" +:+ now));
  t ← attr "title" (e_title e);
  s ← attr "summary" (e_summary e);
  s ← (if PyStr.truthy s then mret s
       else t' ← attr "title" (e_title e);
            mret (PyStr.or_else t' "Maelezo hayapatikani kwa sasa."));
  modify (fun articles =>
            articles ++ [ {| title := PyStr.or_else t "Habari Mpya";
                             summary := s;
                             image := img_url |} ]).

(** Lines 25-45: the body of the loop over the feeds. *)
Definition fetch_feed (url : string) : M (list news_item) unit :=
  try_except
    (entries ← feedparser_call url;
     for_each (take 6 entries) extract_entry)
    (fun e => print ("Feed error: " +:+ e)).

Definition get_news {S} : M S (list news_item) :=
  print (PyStr.nl +:+ "--- [1/4] Fetching Latest News ---");;
  r ← with_local [] (for_each RSS_FEEDS fetch_feed);
  mret r.2.

(** *** [generate_audio_with_fallback] *)

Definition clean (text : string) : string :=
  PyStr.strip
    (PyStr.replace_char (ascii_of_nat 10) " "%char
       (PyStr.remove_char PyStr.squote
          (PyStr.remove_char PyStr.dquote text))).

Definition generate_audio_with_fallback (text : string) (index : nat)
  : M fsys (option string) :=
  let outfile := "audio_" +:+ pretty index +:+ ".mp3" in
  let clean_text := clean text in
  r ← try_except
        (tts_call EdgeTZ clean_text outfile;;
         fs ← get;
         mret (if exists_and_larger fs outfile 100 then Some outfile
               else None))
        (fun e => print ("Microsoft TTS (TZ) failed: " +:+ e);; mret None);
  match r with
  | Some p => mret (Some p)
  | None =>
  r ← try_except
        (tts_call EdgeKE clean_text outfile;;
         fs ← get;
         mret (if exists_and_larger fs outfile 100 then Some outfile
               else None))
        (fun e => print ("Microsoft TTS (KE) failed: " +:+ e);; mret None);
  match r with
  | Some p => mret (Some p)
  | None =>
  r ← try_except
        (print ("Segment " +:+ pretty index +:+ ": Using gTTS fallback...");;
         tts_call GTTS clean_text outfile;;
         fs ← get;
         mret (if exists_and_larger fs outfile 100 then Some outfile
               else None))
        (fun e => print ("Final Fallback gTTS failed: " +:+ e);; mret None);
  match r with
  | Some p => mret (Some p)
  | None => mret None
  end end end.

(** *** [generate_assets] *)

(** Line 96: the narration script. *)
Definition make_script (translated : string) : string :=
  PyStr.join " " (take 80 (PyStr.split translated)) +:+ ".".

(** Lines 93-94: the text that goes on after the translation. *)
Definition choose_text (translated : option string) (item : news_item)
  : string :=
  if negb (PyStr.truthy_opt translated)
     || (String.length (PyStr.strip (default "" translated)) <? 5)%nat
  then title item
  else default "" translated.

Definition duration_cmd (audio_file : string) : list string :=
  [ "ffprobe"; "-v"; "error"; "-show_entries"; "format=duration"; "-of";
    "default=noprint_wrappers=1:nokey=1"; audio_file ].

Definition ffmpeg_cmd (img_file audio_file duration output_video : string)
  : list string :=
  [ "ffmpeg"; "-y"; "-loop"; "1"; "-i"; img_file; "-i"; audio_file;
    "-t"; duration; "-pix_fmt"; "yuv420p";
    "-vf"; "scale=1920:1080:force_original_aspect_ratio=increase,crop=1920:1080,boxblur=20:5 [bg]; [0:v] scale=1920:1080:force_original_aspect_ratio=decrease [fg]; [bg][fg] overlay=(W-w)/2:(H-h)/2";
    "-c:v"; "libx264"; "-preset"; "ultrafast"; "-c:a"; "aac"; "-b:a";
    "128k"; "-shortest"; output_video ].

(** [subprocess.check_output(argv)]: the standard output of the child,
    and an exception when it exits with a non-zero code. *)
Definition check_output (argv : list string) : M fsys string :=
  out ← subprocess_call argv;
  if (out.1.1 =? 0)%Z then mret out.1.2
  else raise "CalledProcessError".

Definition generate_assets (item : news_item) (index : nat)
  : M fsys (option string) :=
  try_except
    (print ("Segment " +:+ pretty index +:+ ": Translating...");;
     translated ← translate_call (summary item);
     let translated := choose_text translated item in
     let script := make_script translated in
     print ("Segment " +:+ pretty index +:+ ": Generating Audio...");;
     audio_file ← generate_audio_with_fallback script index;
     if negb (PyStr.truthy_opt audio_file)
     then raise "All audio engines failed."
     else
       let audio_file := default "" audio_file in
       let img_file := "image_" +:+ pretty index +:+ ".jpg" in
       img_res ← requests_call (image item);
       write_file img_file img_res;;
       let output_video := "segment_" +:+ pretty index +:+ ".mp4" in
       print ("Segment " +:+ pretty index +:+ ": Rendering Video...");;
       duration ← check_output (duration_cmd audio_file);
       let duration := PyStr.strip duration in
       result ← subprocess_call
                  (ffmpeg_cmd img_file audio_file duration output_video);
       if negb (result.1.1 =? 0)%Z
       then print ("FFmpeg Render Error: " +:+ result.2);; mret None
       else
         fs ← get;
         if exists_and_larger fs output_video 1000
         then mret (Some output_video)
         else mret None)
    (fun e =>
       print ("Error in segment " +:+ pretty index +:+ ": " +:+ e);;
       mret None).

(** *** [broadcast_loop] *)

Definition stream_cmd (key : string) : list string :=
  [ "ffmpeg"; "-re"; "-f"; "concat"; "-safe"; "0"; "-i"; "playlist.txt";
    "-vcodec"; "libx264"; "-preset"; "veryfast"; "-maxrate"; "4500k";
    "-bufsize"; "9000k"; "-pix_fmt"; "yuv420p"; "-g"; "60";
    "-c:a"; "aac"; "-b:a"; "128k"; "-ar"; "44100";
    "-f"; "flv"; YOUTUBE_URL +:+ key ].

(** Line 164: one line of the manifest. *)
Definition playlist_line (v : string) : string :=
  "file '" +:+ v +:+ "'" +:+ PyStr.nl.

(** Lines 162-164: the text written to the manifest. *)
Definition playlist_text (video_segments : list string) : string :=
  foldr (fun v rest => playlist_line v +:+ rest) "" video_segments.

(** Lines 151-155: the loop over [enumerate(items)], from index [i] on, with
    the list [video_segments] built so far. *)
Fixpoint render_items (items : list news_item) (i : nat)
    (video_segments : list string) : M fsys (list string) :=
  match items with
  | [] => mret video_segments
  | item :: rest =>
      video ← generate_assets item i;
      if PyStr.truthy_opt video
      then sleep 2;;
           render_items rest (S i) (video_segments ++ [default "" video])
      else render_items rest (S i) video_segments
  end.

(** Lines 179-182: the cleanup of the working directory. *)
Definition cleanup : M fsys unit :=
  fs ← get;
  for_each (listdir fs)
    (fun f =>
       if PyStr.endswith_any f [".mp4"; ".mp3"; ".jpg"]
       then try_except (os_remove f) (fun _ => mret tt)
       else mret tt).

(** Lines 148-182: the body of the [while True] loop. *)
Definition cycle (key : string) : M fsys unit :=
  items ← get_news;
  video_segments ← render_items items 0 [];
  match video_segments with
  | [] =>
      print "No segments generated. Waiting 60s to retry...";;
      sleep 60
  | _ :: _ =>
      write_file "playlist.txt" (playlist_text video_segments);;
      print "--- [STREAMING] Pushing to YouTube ---";;
      subprocess_call (stream_cmd key);;
      cleanup
  end.

Definition broadcast_loop (fuel : nat) : M fsys status :=
  if negb (PyStr.truthy_opt (STREAM_KEY env))
  then print "CRITICAL: YOUTUBE_STREAM_KEY secret is missing!";;
       mret Returned
  else
    fs ← get;
    (if bool_decide (is_Some (fs !! "playlist.txt"))
     then os_remove "playlist.txt" else mret tt);;
    while_true fuel (cycle (default "" (STREAM_KEY env))).

End Program.

(** ** Definitions used to state the properties *)

(** Events that are a network request. *)
Definition is_network (e : event) : bool :=
  match e with
  | EFeedParse _ _ | ETranslate _ _ | ETts _ _ _ _ | EHttpGet _ _ => true
  | _ => false
  end.

(** Events that are a subprocess invocation. *)
Definition is_subprocess (e : event) : bool :=
  match e with ESubprocess _ _ => true | _ => false end.

(** The seconds slept, in order. *)
Definition sleeps (d : list event) : list nat :=
  omap (fun e => match e with ESleep n => Some n | _ => None end) d.

(** The synthesis engines called, in order. *)
Definition engines_called (d : list event) : list engine :=
  omap (fun e => match e with ETts g _ _ _ => Some g | _ => None end) d.

(** The feeds requested, in order. *)
Definition feeds_requested (d : list event) : list string :=
  omap (fun e => match e with EFeedParse u _ => Some u | _ => None end) d.

Definition audio_name (index : nat) : string :=
  "audio_" +:+ pretty index +:+ ".mp3".

Definition image_name (index : nat) : string :=
  "image_" +:+ pretty index +:+ ".jpg".

Definition segment_name (index : nat) : string :=
  "segment_" +:+ pretty index +:+ ".mp4".

Definition failure_message (g : engine) : string :=
  match g with
  | EdgeTZ => "Microsoft TTS (TZ) failed: "
  | EdgeKE => "Microsoft TTS (KE) failed: "
  | GTTS => "Final Fallback gTTS failed: "
  end.

(** One attempt of the fallback chain, read off the outside world: engine
    [g] is asked to save [text] to [outfile]; the attempt succeeds when the
    engine does not raise and leaves a file of more than 100 bytes. *)
Definition attempt (env : Env) (index : nat) (g : engine)
    (text outfile : string) (h : list event) (fs : fsys)
  : bool * fsys * list event :=
  let pre :=
    match g with
    | GTTS =>
        [EPrint ("Segment " +:+ pretty index +:+ ": Using gTTS fallback...")]
    | _ => []
    end in
  let '(r, fs') := tts_save env (h ++ pre) g text outfile fs in
  match r with
  | Ok _ =>
      (exists_and_larger fs' outfile 100, fs', pre ++ [ETts g text outfile r])
  | Raise e =>
      (false, fs',
       pre ++ [ETts g text outfile r; EPrint (failure_message g +:+ e)])
  end.

(** The value a generator call leaves in [video_segments], if any. *)
Definition kept (video : option string) : option string :=
  if PyStr.truthy_opt video then Some (default "" video) else None.

(** The pause that follows the processing of an item. *)
Definition pause_after (video : option string) : list event :=
  if PyStr.truthy_opt video then [ESleep 2] else [].

(** The runs of [generate_assets] on the items of a cycle, in processing
    order: what each returned and what it emitted.  Every run starts in the
    state and with the trace that the run before it, and the pause after
    that run, left behind. *)
Fixpoint item_runs (env : Env) (items : list news_item) (i : nat)
    (h : list event) (fs : fsys) : list (option string * list event) :=
  match items with
  | [] => []
  | item :: rest =>
      let run := generate_assets env item i h fs in
      let video := match result_of run with Ok v => v | Raise _ => None end in
      (video, events_of run)
      :: item_runs env rest (S i)
           (h ++ events_of run ++ pause_after video) (state_of run)
  end.

(** The items a cycle started at [h], [fs] fetches. *)
Definition fetched (env : Env) (h : list event) (fs : fsys)
  : list news_item :=
  match result_of (get_news env h fs) with Ok l => l | Raise _ => [] end.

(** The rendering loop of a cycle started at [h], [fs]. *)
Definition rendering (env : Env) (h : list event) (fs : fsys)
  : res (list string) * fsys * list event :=
  render_items env (fetched env h fs) 0 []
    (h ++ events_of (get_news env h fs)) (state_of (get_news env h fs)).

(** The segments that a cycle started at [h], [fs] renders successfully. *)
Definition segments_of (env : Env) (h : list event) (fs : fsys)
  : list string :=
  match result_of (rendering env h fs) with Ok l => l | Raise _ => [] end.

(** The lines of the manifest in a working directory. *)
Definition manifest (fs : fsys) : option string := fs !! "playlist.txt".

(** What the feed fetcher emits: log lines, feed requests, clock reads. *)
Definition news_event (e : event) : Prop :=
  match e with
  | EPrint _ | EFeedParse _ _ | ETimeTime _ => True
  | _ => False
  end.

(** What the synthesizer emits: log lines and engine calls. *)
Definition audio_event (e : event) : Prop :=
  match e with
  | EPrint _ | ETts _ _ _ _ => True
  | _ => False
  end.

(** What the processing of one item emits: no pause, no removal, no write of
    the manifest, and no child process other than the probe and the encode
    of a segment. *)
Definition asset_event (e : event) : Prop :=
  match e with
  | EPrint _ | ETranslate _ _ | ETts _ _ _ _ | EHttpGet _ _ => True
  | EWrite path _ _ => path <> "playlist.txt"
  | ESubprocess argv _ => nth 1 argv "" = "-v" \/ nth 1 argv "" = "-y"
  | _ => False
  end.

Definition fetch_banner : string :=
  PyStr.nl +:+ "--- [1/4] Fetching Latest News ---".

(** What the rendering loop emits: what the items emit, and the pauses. *)
Definition render_event (e : event) : Prop :=
  asset_event e \/ e = ESleep 2.

(** A string without whitespace. *)
Fixpoint no_space (s : string) : bool :=
  match s with
  | EmptyString => true
  | String a s' => negb (PyStr.is_space a) && no_space s'
  end.

(** A word: not empty, and without whitespace. *)
Definition is_word (w : string) : Prop :=
  PyStr.truthy w = true /\ no_space w = true.

(** A text that ends a sentence. *)
Definition sentence_terminated (s : string) : bool :=
  PyStr.endswith_any s ["."; "!"; "?"].

(** The narration script as the specification words it, to compare with
    [make_script]: the first 80 words, and a period only when the text does
    not end a sentence already. *)
Definition script_as_specified (translated : string) : string :=
  let truncated := PyStr.join " " (take 80 (PyStr.split translated)) in
  if sentence_terminated truncated then truncated else truncated +:+ ".".

(** A file name that the cleanup looks for. *)
Definition is_media (f : string) : bool :=
  PyStr.endswith_any f [".mp4"; ".mp3"; ".jpg"].

(** Events that are not a feed request. *)
Definition entry_event (e : event) : Prop :=
  match e with
  | EPrint _ | ETimeTime _ => True
  | _ => False
  end.

(** A computation whose every event satisfies [P]. *)
Definition emits {S A} (P : event -> Prop) (m : M S A) : Prop :=
  forall h s, Forall P (events_of (m h s)).

(** A computation that never raises. *)
Definition total {S A} (m : M S A) : Prop :=
  forall h s, exists a, result_of (m h s) = Ok a.

(** The postcondition of one run. *)
Definition wp {S A} (m : M S A) (h : list event) (s : S)
    (Q : res A -> S -> list event -> Prop) : Prop :=
  Q (result_of (m h s)) (state_of (m h s)) (events_of (m h s)).

(** The outcome of processing one item: nothing, or the segment file, which
    then exists with more than 1000 bytes behind an encode that exited with
    code 0. *)
Definition rendered (index : nat) (r : res (option string)) (fs : fsys)
    (d : list event) : Prop :=
  r = Ok None
  \/ (r = Ok (Some (segment_name index))
      /\ exists_and_larger fs (segment_name index) 1000 = true
      /\ (exists img aud dur so se,
            In (ESubprocess (ffmpeg_cmd img aud dur (segment_name index))
                  (Ok (0%Z, so, se))) d)
      /\ forall argv r',
           In (ESubprocess argv r') d ->
           nth 1 argv "" = "-y" -> exists so se, r' = Ok (0%Z, so, se)).

(** What the synthesis engines are asked to say for an item: the cleaned
    script of the chosen text, for some answer [tr] of the translator. *)
Definition narrates (item : news_item) (index : nat) (e : event) : Prop :=
  match e with
  | ETts _ text outfile _ =>
      outfile = audio_name index
      /\ exists tr, text = clean (make_script (choose_text tr item))
  | _ => True
  end.

(** ** Concrete worlds *)

Module Demo.

(** A file body of [n] bytes. *)
Definition blob (n : nat) : string :=
  string_of_list_ascii (repeat "x"%char n).

Definition plain_entry (t s : string) : entry :=
  {| e_media_content := None; e_links := None;
     e_title := Some t; e_summary := Some s |}.

(** A world in which the first neural voice is unreachable, the second
    writes a 50-byte file, the last engine writes a 200-byte file, the
    translator fails on the text [bad] only, and the media tools work. *)
Definition world (key : option string)
    (feed : list event -> string -> res (list entry))
    (rm_err : list event -> string -> option exn) : Env :=
  {| STREAM_KEY := key;
     feedparser_parse := feed;
     time_time := fun h => pretty (length h);
     translate := fun _ text =>
       if String.eqb text "bad" then Raise "translation failed"
       else Ok (Some ("Habari: " +:+ text));
     tts_save := fun _ g _ out fs =>
       match g with
       | EdgeTZ => (Raise "no connection", fs)
       | EdgeKE => (Ok tt, <[out := blob 50]> fs)
       | GTTS => (Ok tt, <[out := blob 200]> fs)
       end;
     requests_get := fun _ _ => Ok "jpeg";
     subprocess_run := fun _ argv fs =>
       match argv with
       | "ffprobe" :: _ => (Ok (0%Z, "3.5" +:+ PyStr.nl, ""), fs)
       | "ffmpeg" :: "-y" :: _ =>
           (Ok (0%Z, "", ""), <[List.last argv "" := blob 1001]> fs)
       | _ => (Ok (0%Z, "", ""), fs)
       end;
     write_error := fun _ _ => None;
     remove_error := rm_err |}.

Definition no_error : list event -> string -> option exn := fun _ _ => None.

(** The first feed has the given entries, the second has none. *)
Definition feed_of (es : list entry)
  : list event -> string -> res (list entry) :=
  fun _ url =>
    if String.eqb url "https://www.bbc.com/swahili/index.xml" then Ok es
    else Ok [].

Definition item (t s : string) : news_item :=
  {| title := t; summary := s; image := "http://img" |}.

End Demo.

Module Scenario.
Import Demo.

(** Both feeds are empty once a stream has been published. *)
Definition feed_once (es : list entry)
  : list event -> string -> res (list entry) :=
  fun h url =>
    if existsb
         (fun e => match e with
                   | ESubprocess argv _ => String.eqb (nth 1 argv "") "-re"
                   | _ => false
                   end) h
    then Ok []
    else feed_of es h url.

(** One good story, then nothing. *)
Definition one_then_none : Env :=
  world (Some "k") (feed_once [plain_entry "Kichwa" "story"]) no_error.

(** Four stories; the translator fails on the second and the third. *)
Definition four_stories : Env :=
  world (Some "k")
    (feed_of [plain_entry "A" "one"; plain_entry "B" "bad";
              plain_entry "C" "bad"; plain_entry "D" "four"])
    no_error.

(** Two stories; the translator fails on the first. *)
Definition bad_then_good : Env :=
  world (Some "k")
    (feed_of [plain_entry "A" "bad"; plain_entry "B" "good"]) no_error.

(** One story, on which the translator fails. *)
Definition all_bad : Env :=
  world (Some "k") (feed_of [plain_entry "T" "bad"]) no_error.

End Scenario.

Module CleanupScenario.
Import Demo.

(** The removal of [locked.mp3] is refused. *)
Definition locked : list event -> string -> option exn :=
  fun _ f =>
    if String.eqb f "locked.mp3" then Some "PermissionError" else None.

Definition env : Env := world (Some "k") (feed_of []) locked.

(** A working directory with media of this round, media left by an earlier
    run, the manifest, and a file of another kind. *)
Definition dir : fsys :=
  <["segment_0.mp4" := blob 5]>
    (<["old_holiday.jpg" := blob 7]>
       (<["locked.mp3" := blob 3]>
          (<["playlist.txt" := "file 'segment_0.mp4'"]>
             (<["notes.md" := "keep"]> ∅)))).

End CleanupScenario.

Module FeedScenario.
Import Demo.

(** An entry with an empty list of media attachments: reading the first
    attachment raises. *)
Definition malformed : entry :=
  {| e_media_content := Some []; e_links := None;
     e_title := Some "Broken"; e_summary := Some "broken" |}.

Definition entries : list entry :=
  [ plain_entry "First" "one"; malformed; plain_entry "Third" "three" ].

(** The first feed has a malformed second entry; the second feed has one
    good entry. *)
Definition env : Env :=
  world (Some "k")
    (fun _ url =>
       if String.eqb url "https://www.bbc.com/swahili/index.xml"
       then Ok entries
       else Ok [plain_entry "Other" "other"])
    no_error.

End FeedScenario.

(** An article with no empty field. *)
Definition filled (it : news_item) : bool :=
  PyStr.truthy (title it) && PyStr.truthy (summary it)
  && PyStr.truthy (image it).

(** A link that the image search of [get_news] takes: its declared type
    contains the word image. *)
Definition image_link (l : link) : bool :=
  PyStr.contains "image" (default "" (link_type l)).

Module LinkScenario.

(** An entry without media attachments and with three links, of which the
    second and the third are declared as images. *)
Definition two_images : entry :=
  {| e_media_content := None;
     e_links :=
       Some [ {| link_type := Some "text/html"; link_href := Some "page" |};
              {| link_type := Some "image/png"; link_href := Some "a.png" |};
              {| link_type := Some "image/jpeg"; link_href := Some "b.jpg" |} ];
     e_title := Some "T"; e_summary := Some "S" |}.

(** The first feed cannot be parsed; the second has one entry. *)
Definition first_feed_down : Env :=
  Demo.world (Some "k")
    (fun _ url =>
       if String.eqb url "https://www.bbc.com/swahili/index.xml"
       then Raise "timed out"
       else Ok [Demo.plain_entry "Other" "other"])
    Demo.no_error.

End LinkScenario.

(** The characters of a string. *)
Definition chars (s : string) : list ascii := list_ascii_of_string s.

(** What the synthesizer emits for a text and an index: log lines, and
    engine calls on the cleaned text and the audio file of the index. *)
Definition synthesis_event (text : string) (index : nat) (e : event) : Prop :=
  match e with
  | EPrint _ => True
  | ETts _ t outfile _ => t = clean text /\ outfile = audio_name index
  | _ => False
  end.

Module StaleScenario.

(** The first neural voice writes 200 bytes and then fails; the second
    returns without writing anything. *)
Definition env : Env :=
  {| STREAM_KEY := Some "k";
     feedparser_parse := fun _ _ => Ok [];
     time_time := fun _ => "0";
     translate := fun _ text => Ok (Some text);
     tts_save := fun _ g _ out fs =>
       match g with
       | EdgeTZ => (Raise "connection reset", <[out := Demo.blob 200]> fs)
       | _ => (Ok tt, fs)
       end;
     requests_get := fun _ _ => Ok "jpeg";
     subprocess_run := fun _ _ fs => (Ok (0%Z, "", ""), fs);
     write_error := fun _ _ => None;
     remove_error := fun _ _ => None |}.

End StaleScenario.

(** What the child processes started for an item are: the probe of the
    item's audio file, or the encode of the item's image and audio into the
    item's segment, for the stripped duration that a probe with exit code 0
    printed, after the image was downloaded and written. *)
Definition child_of_item (item : news_item) (index : nat) (d : list event)
    (argv : list string) : Prop :=
  argv = duration_cmd (audio_name index)
  \/ exists data so se,
       In (EHttpGet (image item) (Ok data)) d
       /\ In (EWrite (image_name index) data (Ok tt)) d
       /\ In (ESubprocess (duration_cmd (audio_name index)) (Ok (0%Z, so, se))) d
       /\ argv = ffmpeg_cmd (image_name index) (audio_name index)
                   (PyStr.strip so) (segment_name index).

(** What the cleanup emits: removals of media files. *)
Definition cleanup_event (e : event) : Prop :=
  match e with
  | ERemove f _ => is_media f = true
  | _ => False
  end.

Module KeyScenario.

(** The credential is set, to the empty string. *)
Definition empty_key : Env :=
  Demo.world (Some "") (Demo.feed_of []) Demo.no_error.

(** The publisher cannot be started; everything else works. *)
Definition no_publisher : Env :=
  {| STREAM_KEY := Some "k";
     feedparser_parse := Demo.feed_of [Demo.plain_entry "Kichwa" "story"];
     time_time := fun h => pretty (length h);
     translate := fun _ text => Ok (Some ("Habari: " +:+ text));
     tts_save := fun _ _ _ out fs => (Ok tt, <[out := Demo.blob 200]> fs);
     requests_get := fun _ _ => Ok "jpeg";
     subprocess_run := fun _ argv fs =>
       match argv with
       | "ffprobe" :: _ => (Ok (0%Z, "3.5" +:+ PyStr.nl, ""), fs)
       | "ffmpeg" :: "-y" :: _ =>
           (Ok (0%Z, "", ""), <[List.last argv "" := Demo.blob 1001]> fs)
       | _ => (Raise "FileNotFoundError: ffmpeg", fs)
       end;
     write_error := fun _ _ => None;
     remove_error := fun _ _ => None |}.

(** The manifest of an earlier run cannot be removed. *)
Definition stuck_manifest : Env :=
  Demo.world (Some "k") (Demo.feed_of [])
    (fun _ f =>
       if String.eqb f "playlist.txt" then Some "PermissionError" else None).

End KeyScenario.

(** ** Reasoning about runs *)

Lemma run_bind {S A B} (m : M S A) (k : A -> M S B) h s :
  (m ≫= k) h s =
  match m h s with
  | (Ok a, s1, d1) =>
      let '(r, s2, d2) := k a (h ++ d1) s1 in (r, s2, d1 ++ d2)
  | (Raise e, s1, d1) => (Raise e, s1, d1)
  end.
Proof. reflexivity. Qed.

Section Emits.
Context {S : Type} (P : event -> Prop).

Lemma emits_ret {A} (a : A) : emits (S:=S) (A:=A) P (mret a).
Proof. intros h s. constructor. Qed.

Lemma emits_raise {A} e : emits (S:=S) (A:=A) P (raise e).
Proof. intros h s. constructor. Qed.

Lemma emits_lift {A} (r : res A) : emits (S:=S) P (lift r).
Proof. intros h s. constructor. Qed.

Lemma emits_get : emits (S:=S) P get.
Proof. intros h s. constructor. Qed.

Lemma emits_modify f : emits (S:=S) P (modify f).
Proof. intros h s. constructor. Qed.

Lemma emits_emit e : P e -> emits (S:=S) P (emit e).
Proof. intros He h s. repeat constructor. exact He. Qed.

Lemma emits_bind {A B} (m : M S A) (k : A -> M S B) :
  emits P m -> (forall a, emits P (k a)) -> emits P (m ≫= k).
Proof.
  intros Hm Hk h s. rewrite run_bind. specialize (Hm h s).
  destruct (m h s) as [[[a|e] s1] d1]; cbn in *; [|exact Hm].
  specialize (Hk a (h ++ d1) s1).
  destruct (k a (h ++ d1) s1) as [[r s2] d2]; cbn in *.
  apply Forall_app; split; assumption.
Qed.

Lemma emits_try {A} (m : M S A) handler :
  emits P m -> (forall e, emits P (handler e)) -> emits P (try_except m handler).
Proof.
  intros Hm Hk h s. unfold try_except. specialize (Hm h s).
  destruct (m h s) as [[[a|e] s1] d1]; cbn in *; [exact Hm|].
  specialize (Hk e (h ++ d1) s1).
  destruct (handler e (h ++ d1) s1) as [[r s2] d2]; cbn in *.
  apply Forall_app; split; assumption.
Qed.

Lemma emits_for_each {A} (l : list A) (body : A -> M S unit) :
  (forall x, emits P (body x)) -> emits P (for_each l body).
Proof.
  intros Hb. induction l as [|x l IH]; cbn.
  - apply emits_ret.
  - apply emits_bind; [apply Hb | intros _; exact IH].
Qed.

Lemma emits_with_local {T A} (init : T) (m : M T A) :
  emits P m -> emits (S:=S) P (with_local init m).
Proof.
  intros Hm h s. unfold with_local. specialize (Hm h init).
  destruct (m h init) as [[[a|e] t] d]; exact Hm.
Qed.

End Emits.

Lemma emits_weaken {S A} (P Q : event -> Prop) (m : M S A) :
  (forall e, P e -> Q e) -> emits P m -> emits Q m.
Proof. intros HPQ Hm h s. eapply Forall_impl; [apply Hm | exact HPQ]. Qed.

(** ** The narration synthesizer *)

Ltac unfold_monad :=
  unfold try_except, print, emit, get, modify, lift, raise, mbind, M_bind,
    bind, mret, M_ret, ret.

(** The two neural-voice [try] blocks of the source are one [attempt]. *)
Lemma edge_block_attempt (env : Env) (index : nat) (g : engine)
    (ct out : string) (h : list event) (fs : fsys) :
  g <> GTTS ->
  try_except
    (tts_call env g ct out;;
     fs' ← get;
     mret (if exists_and_larger fs' out 100 then Some out else None))
    (fun e => print (failure_message g +:+ e);; mret None) h fs
  = let a := attempt env index g ct out h fs in
    (Ok (if a.1.1 then Some out else None), a.1.2, a.2).
Proof.
  intros Hg. unfold attempt, tts_call. unfold_monad.
  destruct g; [| |congruence]; cbn; rewrite app_nil_r;
    destruct (tts_save env h _ ct out fs) as [[[]|e] fs1]; reflexivity.
Qed.

(** The last [try] block of the source is one [attempt] as well. *)
Lemma gtts_block_attempt (env : Env) (index : nat)
    (ct out : string) (h : list event) (fs : fsys) :
  try_except
    (print ("Segment " +:+ pretty index +:+ ": Using gTTS fallback...");;
     tts_call env GTTS ct out;;
     fs' ← get;
     mret (if exists_and_larger fs' out 100 then Some out else None))
    (fun e => print (failure_message GTTS +:+ e);; mret None) h fs
  = let a := attempt env index GTTS ct out h fs in
    (Ok (if a.1.1 then Some out else None), a.1.2, a.2).
Proof.
  unfold attempt, tts_call. unfold_monad.
  destruct (tts_save env _ GTTS ct out fs) as [[[]|e] fs1]; reflexivity.
Qed.

Lemma generate_audio_with_fallback_attempts (env : Env) (text : string)
    (index : nat) (h : list event) (fs : fsys) :
  let out := audio_name index in
  let a1 := attempt env index EdgeTZ (clean text) out h fs in
  let a2 := attempt env index EdgeKE (clean text) out (h ++ a1.2) a1.1.2 in
  let a3 :=
    attempt env index GTTS (clean text) out (h ++ a1.2 ++ a2.2) a2.1.2 in
  generate_audio_with_fallback env text index h fs =
  if a1.1.1 then (Ok (Some out), a1.1.2, a1.2)
  else if a2.1.1 then (Ok (Some out), a2.1.2, a1.2 ++ a2.2)
  else (Ok (if a3.1.1 then Some out else None), a3.1.2, a1.2 ++ a2.2 ++ a3.2).
Proof.
  cbv zeta. unfold generate_audio_with_fallback. fold (audio_name index).
  rewrite run_bind.
  rewrite (edge_block_attempt env index EdgeTZ) by discriminate. cbv zeta.
  destruct (attempt env index EdgeTZ _ _ h fs) as [[b1 fs1] d1]; cbn [fst snd].
  destruct b1.
  { cbn. by rewrite app_nil_r. }
  rewrite run_bind.
  rewrite (edge_block_attempt env index EdgeKE) by discriminate. cbv zeta.
  destruct (attempt env index EdgeKE _ _ (h ++ d1) fs1) as [[b2 fs2] d2];
    cbn [fst snd].
  destruct b2.
  { cbn. by rewrite app_nil_r. }
  rewrite run_bind.
  rewrite (gtts_block_attempt env index). cbv zeta.
  rewrite <- app_assoc.
  destruct (attempt env index GTTS _ _ (h ++ d1 ++ d2) fs2) as [[b3 fs3] d3];
    cbn [fst snd].
  destruct b3; cbn; by rewrite app_nil_r.
Qed.

Lemma engines_called_attempt env index g ct out h fs :
  engines_called (attempt env index g ct out h fs).2 = [g].
Proof.
  unfold attempt.
  destruct (tts_save env _ g ct out fs) as [[[]|e] fs1]; destruct g; reflexivity.
Qed.

Lemma engines_called_app d1 d2 :
  engines_called (d1 ++ d2) = engines_called d1 ++ engines_called d2.
Proof. apply omap_app. Qed.

(** C1: the three engines are tried in the fixed order TZ, KE, gTTS; the
    first attempt that leaves a file of more than 100 bytes ends the chain and
    the path of that file is returned; when all three attempts fail nothing is
    returned; in particular, when the first two fail and the third succeeds,
    the third engine's output path is returned. *)
Theorem C1_fallback_chain (env : Env) (text : string) (index : nat)
    (h : list event) (fs : fsys) :
  let out := audio_name index in
  let run := generate_audio_with_fallback env text index h fs in
  let a1 := attempt env index EdgeTZ (clean text) out h fs in
  let a2 := attempt env index EdgeKE (clean text) out (h ++ a1.2) a1.1.2 in
  let a3 :=
    attempt env index GTTS (clean text) out (h ++ a1.2 ++ a2.2) a2.1.2 in
  (a1.1.1 = true ->
     run = (Ok (Some out), a1.1.2, a1.2)
     /\ engines_called (events_of run) = [EdgeTZ])
  /\ (a1.1.1 = false -> a2.1.1 = true ->
        run = (Ok (Some out), a2.1.2, a1.2 ++ a2.2)
        /\ engines_called (events_of run) = [EdgeTZ; EdgeKE])
  /\ (a1.1.1 = false -> a2.1.1 = false -> a3.1.1 = true ->
        run = (Ok (Some out), a3.1.2, a1.2 ++ a2.2 ++ a3.2)
        /\ engines_called (events_of run) = [EdgeTZ; EdgeKE; GTTS])
  /\ (a1.1.1 = false -> a2.1.1 = false -> a3.1.1 = false ->
        run = (Ok None, a3.1.2, a1.2 ++ a2.2 ++ a3.2)
        /\ engines_called (events_of run) = [EdgeTZ; EdgeKE; GTTS]).
Proof.
  cbv zeta. rewrite generate_audio_with_fallback_attempts. cbv zeta.
  unfold events_of.
  repeat split; intros;
    repeat match goal with H : _ = _ |- _ => rewrite H end; cbn [fst snd];
    rewrite ?engines_called_app, ?engines_called_attempt; reflexivity.
Qed.

(** ** What each stage can emit *)

Section Calls.
Context (env : Env) (P : event -> Prop).

Lemma emits_feedparser_call {S} url :
  (forall r, P (EFeedParse url r)) -> emits (S:=S) P (feedparser_call env url).
Proof. intros H h s. repeat constructor. apply H. Qed.

Lemma emits_time_call {S} :
  (forall now, P (ETimeTime now)) -> emits (S:=S) P (time_call env).
Proof. intros H h s. repeat constructor. apply H. Qed.

Lemma emits_translate_call {S} text :
  (forall r, P (ETranslate text r)) -> emits (S:=S) P (translate_call env text).
Proof. intros H h s. repeat constructor. apply H. Qed.

Lemma emits_tts_call g text out :
  (forall r, P (ETts g text out r)) -> emits P (tts_call env g text out).
Proof.
  intros H h s. unfold tts_call.
  destruct (tts_save env h g text out s). repeat constructor. apply H.
Qed.

Lemma emits_requests_call {S} url :
  (forall r, P (EHttpGet url r)) -> emits (S:=S) P (requests_call env url).
Proof. intros H h s. repeat constructor. apply H. Qed.

Lemma emits_subprocess_call argv :
  (forall r, P (ESubprocess argv r)) -> emits P (subprocess_call env argv).
Proof.
  intros H h s. unfold subprocess_call.
  destruct (subprocess_run env h argv s). repeat constructor. apply H.
Qed.

Lemma emits_write_file path data :
  (forall r, P (EWrite path data r)) -> emits P (write_file env path data).
Proof.
  intros H h s. unfold write_file.
  destruct (write_error env h path); repeat constructor; apply H.
Qed.

Lemma emits_os_remove path :
  (forall r, P (ERemove path r)) -> emits P (os_remove env path).
Proof.
  intros H h s. unfold os_remove.
  destruct (remove_error env h path); [|destruct (s !! path)];
    repeat constructor; apply H.
Qed.

End Calls.

Ltac emits_step :=
  first
    [ apply emits_ret | apply emits_raise | apply emits_get
    | apply emits_lift | apply emits_modify
    | apply emits_emit
    | apply emits_bind; [|intros ?]
    | apply emits_try; [|intros ?]
    | apply emits_for_each; intros ?
    | apply emits_with_local
    | apply emits_feedparser_call; intros ?
    | apply emits_time_call; intros ?
    | apply emits_translate_call; intros ?
    | apply emits_tts_call; intros ?
    | apply emits_requests_call; intros ?
    | apply emits_subprocess_call; intros ?
    | apply emits_write_file; intros ?
    | apply emits_os_remove; intros ?
    | match goal with
      | |- emits _ (if ?b then _ else _) => destruct b
      | |- emits _ (match ?b with _ => _ end) => destruct b
      end ].

Ltac emits_auto := unfold print, sleep, attr, check_output; repeat emits_step.

Lemma get_news_emits {S} env : emits (S:=S) news_event (get_news env).
Proof.
  unfold get_news, fetch_feed, extract_entry.
  emits_auto; exact I.
Qed.

Lemma generate_audio_with_fallback_emits env text index :
  emits audio_event (generate_audio_with_fallback env text index).
Proof.
  unfold generate_audio_with_fallback. cbv zeta.
  emits_auto; exact I.
Qed.

Lemma generate_assets_emits env item index :
  emits asset_event (generate_assets env item index).
Proof.
  unfold generate_assets. cbv zeta.
  emits_auto; cbn; try exact I; try discriminate; auto.
Qed.

(** ** Stages that never raise *)

Section Total.
Context {S : Type}.

Lemma total_ret {A} (a : A) : total (S:=S) (A:=A) (mret a).
Proof. intros h s. by exists a. Qed.

Lemma total_emit e : total (S:=S) (emit e).
Proof. intros h s. by exists tt. Qed.

Lemma total_bind {A B} (m : M S A) (k : A -> M S B) :
  total m -> (forall a, total (k a)) -> total (m ≫= k).
Proof.
  intros Hm Hk h s. rewrite run_bind.
  destruct (Hm h s) as [a Ha]. unfold result_of in Ha.
  destruct (m h s) as [[r s1] d1]; cbn in Ha; subst r.
  destruct (Hk a (h ++ d1) s1) as [b Hb]. unfold result_of in Hb.
  destruct (k a (h ++ d1) s1) as [[r s2] d2]; cbn in *. eauto.
Qed.

Lemma total_try {A} (m : M S A) handler :
  (forall e, total (handler e)) -> total (try_except m handler).
Proof.
  intros Hk h s. unfold try_except.
  destruct (m h s) as [[[a|e] s1] d1]; [by exists a|].
  destruct (Hk e (h ++ d1) s1) as [b Hb]. unfold result_of in Hb.
  destruct (handler e (h ++ d1) s1) as [[r s2] d2]; cbn in *. eauto.
Qed.

Lemma total_for_each {A} (l : list A) (body : A -> M S unit) :
  (forall x, total (body x)) -> total (for_each l body).
Proof.
  intros Hb. induction l as [|x l IH]; cbn.
  - apply total_ret.
  - apply total_bind; [apply Hb | intros _; exact IH].
Qed.

End Total.

Lemma fetch_feed_total env url : total (fetch_feed env url).
Proof.
  apply total_try. intros e. apply total_emit.
Qed.

(** [get_news] never raises and leaves the working directory alone. *)
Lemma get_news_ok {S} env h (s : S) :
  exists items, get_news env h s = (Ok items, s, events_of (get_news env h s)).
Proof.
  unfold get_news.
  generalize (total_for_each RSS_FEEDS (fetch_feed env) (fetch_feed_total env)).
  generalize (for_each RSS_FEEDS (fetch_feed env)). intros m Hm.
  unfold with_local. unfold_monad.
  destruct (Hm (h ++ [EPrint (PyStr.nl +:+ "--- [1/4] Fetching Latest News ---")]) [])
    as [u Hu].
  unfold result_of in Hu.
  destruct (m _ _) as [[r t] d].
  cbn in Hu. subst r. cbn. eauto.
Qed.

Lemma get_news_fetched env h (s : fsys) :
  get_news env h s = (Ok (fetched env h s), s, events_of (get_news env h s)).
Proof.
  destruct (get_news_ok env h s) as [items H].
  unfold fetched. rewrite H at 1 2. reflexivity.
Qed.

(** [generate_assets] never raises. *)
Lemma generate_assets_total env item index :
  total (generate_assets env item index).
Proof.
  apply total_try. intros e.
  apply total_bind; [apply total_emit | intros _; apply total_ret].
Qed.

(** The rendering loop, run by run. *)
Lemma render_items_runs env items : forall i vs h fs,
  let runs := item_runs env items i h fs in
  result_of (render_items env items i vs h fs) = Ok (vs ++ omap (kept ∘ fst) runs)
  /\ events_of (render_items env items i vs h fs)
     = concat (map (fun r => r.2 ++ pause_after r.1) runs).
Proof.
  induction items as [|item rest IH]; intros i vs h fs; cbn zeta.
  - cbn. by rewrite app_nil_r.
  - cbn [render_items item_runs]. rewrite run_bind.
    destruct (generate_assets_total env item i h fs) as [v Hv].
    unfold result_of, events_of, state_of in *.
    destruct (generate_assets env item i h fs) as [[r fs1] d]; cbn in Hv.
    subst r. cbn [fst snd map concat].
    change (omap (kept ∘ fst) ((v, d) :: ?l))
      with (match kept v with
            | Some y => y :: omap (kept ∘ fst) l
            | None => omap (kept ∘ fst) l
            end).
    destruct (PyStr.truthy_opt v) eqn:Ht.
    + assert (Hk : kept v = Some (default "" v)) by (unfold kept; by rewrite Ht).
      assert (Hp : pause_after v = [ESleep 2])
        by (unfold pause_after; by rewrite Ht).
      rewrite Hk, Hp. rewrite run_bind. unfold sleep, emit. cbn [fst snd].
      rewrite <- app_assoc.
      specialize (IH (S i) (vs ++ [default "" v]) (h ++ d ++ [ESleep 2]) fs1).
      cbv zeta in IH. destruct IH as [IH1 IH2].
      destruct (render_items env rest (S i) _ (h ++ d ++ [ESleep 2]) fs1)
        as [[r2 fs2] d2]; cbn in IH1, IH2; cbn [fst snd].
      rewrite IH1, IH2. rewrite <- !app_assoc. split; reflexivity.
    + assert (Hk : kept v = None) by (unfold kept; by rewrite Ht).
      assert (Hp : pause_after v = []) by (unfold pause_after; by rewrite Ht).
      rewrite Hk, Hp.
      specialize (IH (S i) vs (h ++ d ++ []) fs1).
      cbv zeta in IH. destruct IH as [IH1 IH2]. rewrite app_nil_r in *.
      destruct (render_items env rest (S i) vs (h ++ d) fs1)
        as [[r2 fs2] d2]; cbn in IH1, IH2; cbn [fst snd].
      rewrite IH1, IH2. split; reflexivity.
Qed.

Lemma rendering_ok env h fs :
  result_of (rendering env h fs) = Ok (segments_of env h fs).
Proof.
  unfold segments_of.
  destruct (render_items_runs env (fetched env h fs) 0 []
              (h ++ events_of (get_news env h fs))
              (state_of (get_news env h fs))) as [H _].
  fold (rendering env h fs) in H. by rewrite H.
Qed.

(** One round of the loop, in terms of its fetch and its rendering loop. *)
Lemma cycle_run env key h fs :
  let n := get_news env h fs in
  let rd := rendering env h fs in
  cycle env key h fs =
  match segments_of env h fs with
  | [] =>
      (Ok tt, state_of rd,
       events_of n ++ events_of rd
       ++ [EPrint "No segments generated. Waiting 60s to retry...";
           ESleep 60])
  | v :: vs =>
      let t :=
        (write_file env "playlist.txt" (playlist_text (v :: vs));;
         print "--- [STREAMING] Pushing to YouTube ---";;
         subprocess_call env (stream_cmd key);;
         cleanup env) (h ++ events_of n ++ events_of rd) (state_of rd) in
      (result_of t, state_of t, events_of n ++ events_of rd ++ events_of t)
  end.
Proof.
  cbv zeta. unfold cycle. rewrite run_bind.
  pose proof (rendering_ok env h fs) as Hr. unfold rendering in *.
  rewrite (get_news_fetched env h fs) in *.
  cbn [fst snd events_of state_of] in *.
  rewrite run_bind.
  unfold result_of, state_of, events_of in *.
  destruct (render_items env (fetched env h fs) 0 [] _ fs) as [[r fs1] d1].
  cbn [fst snd] in *. subst r.
  destruct (segments_of env h fs) as [|v vs].
  - rewrite run_bind. unfold print, sleep, emit. cbn. reflexivity.
  - rewrite <- app_assoc.
    destruct ((write_file env "playlist.txt" (playlist_text (v :: vs));; _) _ fs1)
      as [[r2 fs2] d2].
    cbn. reflexivity.
Qed.

(** ** The main loop *)

Lemma render_items_emits env items : forall i vs,
  emits render_event (render_items env items i vs).
Proof.
  induction items as [|item rest IH]; intros i vs; cbn [render_items].
  - apply emits_ret.
  - apply emits_bind.
    + eapply emits_weaken; [|apply generate_assets_emits]. intros e; by left.
    + intros v. destruct (PyStr.truthy_opt v); [|apply IH].
      apply emits_bind; [|intros _; apply IH].
      apply emits_emit. by right.
Qed.

Lemma sleeps_app d1 d2 : sleeps (d1 ++ d2) = sleeps d1 ++ sleeps d2.
Proof. apply omap_app. Qed.

Lemma sleeps_news d : Forall news_event d -> sleeps d = [].
Proof.
  induction 1 as [|e d He _ IH]; [done|].
  destruct e; cbn in *; try done; exact IH.
Qed.

Lemma sleeps_assets d : Forall asset_event d -> sleeps d = [].
Proof.
  induction 1 as [|e d He _ IH]; [done|].
  destruct e; cbn in *; try done; exact IH.
Qed.

Lemma item_runs_assets env items : forall i h fs,
  Forall (fun r => Forall asset_event r.2) (item_runs env items i h fs).
Proof.
  induction items as [|item rest IH]; intros i h fs; cbn [item_runs].
  - constructor.
  - constructor; [apply generate_assets_emits | apply IH].
Qed.

(** One pause of two seconds per kept segment, and no other pause. *)
Lemma sleeps_runs (runs : list (option string * list event)) :
  Forall (fun r => Forall asset_event r.2) runs ->
  sleeps (concat (map (fun r => r.2 ++ pause_after r.1) runs))
  = repeat 2 (length (omap (kept ∘ fst) runs)).
Proof.
  induction 1 as [|[v d] runs Hd _ IH]; [done|].
  cbn [map concat fst snd]. rewrite !sleeps_app, IH, (sleeps_assets d Hd).
  change (omap (kept ∘ fst) ((v, d) :: runs))
    with (match kept v with
          | Some y => y :: omap (kept ∘ fst) runs
          | None => omap (kept ∘ fst) runs
          end).
  unfold kept, pause_after. destruct (PyStr.truthy_opt v); reflexivity.
Qed.

Lemma sleeps_render_items env items i h fs segs :
  result_of (render_items env items i [] h fs) = Ok segs ->
  sleeps (events_of (render_items env items i [] h fs))
  = repeat 2 (length segs).
Proof.
  destruct (render_items_runs env items i [] h fs) as [H1 H2].
  rewrite H1, H2. intros [= <-].
  apply sleeps_runs, item_runs_assets.
Qed.

Lemma fetch_feed_starts env url h s :
  exists rest,
    events_of (fetch_feed env url h s)
    = EFeedParse url (feedparser_parse env h url) :: rest.
Proof.
  unfold fetch_feed, try_except. rewrite run_bind. unfold feedparser_call.
  unfold events_of.
  destruct (feedparser_parse env h url) as [es|e].
  - destruct (for_each (take 6 es) (extract_entry env) _ s)
      as [[[u|e] s1] d1]; cbn; eauto.
  - cbn. eauto.
Qed.

Lemma get_news_starts {S} env h (s : S) :
  exists r rest,
    events_of (get_news env h s)
    = EPrint fetch_banner :: EFeedParse "https://www.bbc.com/swahili/index.xml" r
      :: rest.
Proof.
  unfold get_news. cbn [RSS_FEEDS for_each]. fold fetch_banner.
  unfold with_local, print, emit. rewrite !run_bind. cbn [fst snd].
  destruct (fetch_feed_starts env "https://www.bbc.com/swahili/index.xml"
              (h ++ [EPrint fetch_banner]) []) as [rest Hrest].
  unfold events_of in *.
  destruct (fetch_feed env _ (h ++ [EPrint fetch_banner]) [])
    as [[r s1] d1]. cbn in Hrest. subst d1.
  eexists.
  destruct r as [u|e]; cbn; eauto.
  match goal with
  | |- context [(?m ≫= ?k) ?hh s1] =>
      destruct ((m ≫= k) hh s1) as [[[u'|e] s2] d2]
  end; cbn; eauto.
Qed.

(** Every round starts by fetching the feeds. *)
Lemma cycle_starts env key h fs :
  exists r rest,
    events_of (cycle env key h fs)
    = EPrint fetch_banner :: EFeedParse "https://www.bbc.com/swahili/index.xml" r
      :: rest.
Proof.
  pose proof (cycle_run env key h fs) as Hc. cbv zeta in Hc.
  destruct (get_news_starts env h fs) as (r & rest & Hst).
  rewrite Hst in Hc. rewrite Hc. exists r.
  destruct (segments_of env h fs); unfold events_of; cbn; eauto.
Qed.

Lemma not_publish_news key r e : news_event e -> e <> ESubprocess (stream_cmd key) r.
Proof. intros H ->. exact H. Qed.

Lemma not_publish_render key r e :
  render_event e -> e <> ESubprocess (stream_cmd key) r.
Proof. intros [H|H] ->; [|discriminate]. cbn in H. destruct H; discriminate. Qed.

(** C7: with no credential in the environment the program logs one line and
    returns; it makes no network request, starts no subprocess, and runs no
    round of the loop however long it is allowed to run. *)
Theorem C7_missing_credential (env : Env) (fuel : nat) (h : list event)
    (fs : fsys) :
  STREAM_KEY env = None ->
  let run := broadcast_loop env fuel h fs in
  run = (Ok Returned, fs,
         [EPrint "CRITICAL: YOUTUBE_STREAM_KEY secret is missing!"])
  /\ Forall (fun e => is_network e = false /\ is_subprocess e = false)
       (events_of run).
Proof.
  intros Hkey. cbv zeta. unfold broadcast_loop. rewrite Hkey. cbn.
  split; [reflexivity|]. repeat constructor.
Qed.

Lemma C7_missing_credential_witness :
  broadcast_loop (Demo.world None (Demo.feed_of []) Demo.no_error) 3 [] ∅
  = (Ok Returned, ∅,
     [EPrint "CRITICAL: YOUTUBE_STREAM_KEY secret is missing!"]).
Proof.
  apply (C7_missing_credential
           (Demo.world None (Demo.feed_of []) Demo.no_error) 3 [] ∅).
  reflexivity.
Defined.

(** C4: in a round in which no segment was rendered, the stream publisher is
    not invoked; the round ends with the one pause of 60 seconds, which is its
    only pause, and the loop goes on with the next round, which starts by
    fetching the feeds. *)
Theorem C4_circuit_breaker (env : Env) (key : string) (h : list event)
    (fs : fsys) :
  segments_of env h fs = [] ->
  let run := cycle env key h fs in
  run = (Ok tt, state_of (rendering env h fs),
         events_of (get_news env h fs) ++ events_of (rendering env h fs)
         ++ [EPrint "No segments generated. Waiting 60s to retry...";
             ESleep 60])
  /\ (forall r, ~ In (ESubprocess (stream_cmd key) r) (events_of run))
  /\ sleeps (events_of run) = [60]
  /\ forall fuel,
       let next :=
         while_true (S fuel) (cycle env key)
           (h ++ events_of run) (state_of run) in
       while_true (S (S fuel)) (cycle env key) h fs
       = (result_of next, state_of next, events_of run ++ events_of next)
       /\ exists r rest,
            events_of next
            = EPrint fetch_banner
              :: EFeedParse "https://www.bbc.com/swahili/index.xml" r :: rest.
Proof.
  intros Hz. cbv zeta.
  pose proof (cycle_run env key h fs) as Hc. cbv zeta in Hc.
  rewrite Hz in Hc.
  pose proof (get_news_emits env h fs) as Hn.
  pose proof (render_items_emits env (fetched env h fs) 0 []
                (h ++ events_of (get_news env h fs))
                (state_of (get_news env h fs))) as Hr.
  pose proof (rendering_ok env h fs) as Hok. rewrite Hz in Hok.
  pose proof (sleeps_render_items env (fetched env h fs) 0
                (h ++ events_of (get_news env h fs))
                (state_of (get_news env h fs)) [] Hok) as Hs.
  fold (rendering env h fs) in Hr, Hs.
  set (dn := events_of (get_news env h fs)) in *.
  set (dr := events_of (rendering env h fs)) in *.
  set (fr := state_of (rendering env h fs)) in *.
  rewrite Hc. unfold events_of, state_of. cbn [fst snd].
  split; [reflexivity|].
  split; [|split].
  - intros r Hin. rewrite Forall_forall in Hn, Hr.
    apply list_elem_of_In in Hin.
    rewrite !elem_of_app in Hin. destruct Hin as [Hin|[Hin|Hin]].
    + by apply (not_publish_news key r _ (Hn _ Hin)).
    + by apply (not_publish_render key r _ (Hr _ Hin)).
    + apply list_elem_of_In in Hin. cbn in Hin.
      destruct Hin as [Hin|[Hin|[]]]; discriminate.
  - rewrite !sleeps_app, (sleeps_news _ Hn), Hs. reflexivity.
  - intros fuel.
    split.
    + change (while_true (S (S fuel)) (cycle env key))
        with (cycle env key;; while_true (S fuel) (cycle env key)).
      rewrite run_bind, Hc.
      destruct (while_true (S fuel) (cycle env key) _ _) as [[r2 fs2] d2].
      reflexivity.
    + cbn [while_true]. rewrite run_bind.
      set (h' := h ++ _).
      destruct (cycle_starts env key h' fr) as (r & rest & Hst).
      unfold events_of in *.
      destruct (cycle env key h' fr) as [[rc fc] dc]. cbn in Hst. subst dc.
      exists r.
      destruct rc; [|cbn; eauto].
      destruct (while_true fuel (cycle env key) _ fc) as [[r2 f2] d2].
      cbn; eauto.
Qed.

Lemma C4_circuit_breaker_witness :
  sleeps (events_of (cycle Scenario.all_bad "k" [] ∅)) = [60].
Proof.
  refine (proj1 (proj2 (proj2
    (C4_circuit_breaker Scenario.all_bad "k" [] ∅ _)))).
  vm_compute. reflexivity.
Defined.

(** ** The segment renderer *)

Section Wp.
Context {S : Type}.

Lemma wp_ret {A} (a : A) h (s : S) Q : Q (Ok a) s [] -> wp (mret a) h s Q.
Proof. exact id. Qed.

Lemma wp_raise {A} e h (s : S) (Q : res A -> S -> list event -> Prop) :
  Q (Raise e) s [] -> wp (raise e) h s Q.
Proof. exact id. Qed.

Lemma wp_get h (s : S) Q : Q (Ok s) s [] -> wp get h s Q.
Proof. exact id. Qed.

Lemma wp_emit e h (s : S) Q : Q (Ok tt) s [e] -> wp (emit e) h s Q.
Proof. exact id. Qed.

Lemma wp_bind {A B} (m : M S A) (k : A -> M S B) h s Q :
  wp m h s
    (fun r s1 d1 =>
       match r with
       | Ok a => wp (k a) (h ++ d1) s1 (fun r2 s2 d2 => Q r2 s2 (d1 ++ d2))
       | Raise e => Q (Raise e) s1 d1
       end) ->
  wp (m ≫= k) h s Q.
Proof.
  unfold wp, result_of, state_of, events_of. rewrite run_bind.
  destruct (m h s) as [[[a|e] s1] d1]; cbn [fst snd]; [|exact id].
  destruct (k a (h ++ d1) s1) as [[r2 s2] d2]. exact id.
Qed.

Lemma wp_try {A} (m : M S A) handler h s Q :
  wp m h s
    (fun r s1 d1 =>
       match r with
       | Ok a => Q (Ok a) s1 d1
       | Raise e =>
           wp (handler e) (h ++ d1) s1 (fun r2 s2 d2 => Q r2 s2 (d1 ++ d2))
       end) ->
  wp (try_except m handler) h s Q.
Proof.
  unfold wp, result_of, state_of, events_of, try_except.
  destruct (m h s) as [[[a|e] s1] d1]; cbn [fst snd]; [exact id|].
  destruct (handler e (h ++ d1) s1) as [[r2 s2] d2]. exact id.
Qed.

(** Any run of a computation that emits only [P]-events. *)
Lemma wp_emits {A} (P : event -> Prop) (m : M S A) h s
    (Q : res A -> S -> list event -> Prop) :
  emits P m -> (forall r s' d, Forall P d -> Q r s' d) -> wp m h s Q.
Proof. intros Hm HQ. apply HQ, Hm. Qed.

End Wp.

Section WpCalls.
Context (env : Env).

Lemma wp_translate_call {S} text h (s : S) Q :
  (forall r, Q r s [ETranslate text r]) -> wp (translate_call env text) h s Q.
Proof. intros H. apply H. Qed.

Lemma wp_requests_call {S} url h (s : S) Q :
  (forall r, Q r s [EHttpGet url r]) -> wp (requests_call env url) h s Q.
Proof. intros H. apply H. Qed.

Lemma wp_subprocess_call argv h s Q :
  (forall r s', Q r s' [ESubprocess argv r]) ->
  wp (subprocess_call env argv) h s Q.
Proof.
  intros H. unfold wp, subprocess_call, result_of, state_of, events_of.
  destruct (subprocess_run env h argv s). apply H.
Qed.

Lemma wp_write_file path data h s Q :
  (forall e, Q (Raise e) s [EWrite path data (Raise e)]) ->
  Q (Ok tt) (<[path := data]> s) [EWrite path data (Ok tt)] ->
  wp (write_file env path data) h s Q.
Proof.
  intros H1 H2. unfold wp, write_file, result_of, state_of, events_of.
  destruct (write_error env h path); [apply H1 | apply H2].
Qed.

End WpCalls.

Lemma generate_assets_cases env item index h fs :
  wp (generate_assets env item index) h fs (rendered index).
Proof.
  unfold generate_assets.
  fold (segment_name index) (image_name index).
  apply wp_try. unfold print.
  apply wp_bind, wp_emit.
  apply wp_bind, wp_translate_call. intros [tr|e].
  2: { apply wp_bind, wp_emit, wp_ret. by left. }
  apply wp_bind, wp_emit.
  apply wp_bind.
  eapply wp_emits; [apply generate_audio_with_fallback_emits|].
  intros [audio|e] fs1 da Hda.
  2: { apply wp_bind, wp_emit, wp_ret. by left. }
  destruct (negb (PyStr.truthy_opt audio)).
  { apply wp_raise, wp_bind, wp_emit, wp_ret. by left. }
  apply wp_bind, wp_requests_call. intros [img|e].
  2: { apply wp_bind, wp_emit, wp_ret. by left. }
  apply wp_bind, wp_write_file.
  { intros e. apply wp_bind, wp_emit, wp_ret. by left. }
  apply wp_bind, wp_emit.
  apply wp_bind. unfold check_output.
  apply wp_bind, wp_subprocess_call. intros [probe|e] fs2.
  2: { apply wp_bind, wp_emit, wp_ret. by left. }
  destruct (probe.1.1 =? 0)%Z.
  2: { apply wp_raise, wp_bind, wp_emit, wp_ret. by left. }
  apply wp_ret.
  apply wp_bind, wp_subprocess_call. intros [[[rc so] se]|e] fs3.
  2: { apply wp_bind, wp_emit, wp_ret. by left. }
  cbn [fst snd]. destruct (rc =? 0)%Z eqn:Hrc; cbn [negb].
  2: { apply wp_bind, wp_emit, wp_ret. by left. }
  apply Z.eqb_eq in Hrc. subst rc.
  apply wp_bind, wp_get.
  destruct (exists_and_larger fs3 (segment_name index) 1000) eqn:Hlarge;
    apply wp_ret; [right | by left].
  split; [reflexivity|]. split; [exact Hlarge|]. split.
  - exists (image_name index), (default "" audio), (PyStr.strip probe.1.2),
      so, se.
    rewrite !in_app_iff. cbn [In]. tauto.
  - intros argv r' Hin Hy. rewrite !in_app_iff in Hin. cbn [In] in Hin.
    rewrite Forall_forall in Hda.
    repeat match type of Hin with
           | _ \/ _ => destruct Hin as [Hin|Hin]
           end;
      try discriminate; try contradiction.
    + apply list_elem_of_In, Hda in Hin. contradiction.
    + injection Hin as <- _. discriminate.
    + injection Hin as _ <-. eauto.
Qed.

(** C2: processing an item returns a path only when the encode exited with
    code 0 and the output file exists with more than 1000 bytes, and the path
    is then that of the output file; it returns nothing when the encode exits
    with another code, and nothing when the output file is missing or has at
    most 1000 bytes. *)
Theorem C2_segment_renderer (env : Env) (item : news_item) (index : nat)
    (h : list event) (fs : fsys) :
  let run := generate_assets env item index h fs in
  (forall p,
     result_of run = Ok (Some p) ->
     p = segment_name index
     /\ (exists data,
           state_of run !! p = Some data /\ 1000 < String.length data)
     /\ exists img aud dur so se,
          In (ESubprocess (ffmpeg_cmd img aud dur p) (Ok (0%Z, so, se)))
            (events_of run))
  /\ (forall img aud dur out rc so se,
        In (ESubprocess (ffmpeg_cmd img aud dur out) (Ok (rc, so, se)))
          (events_of run) ->
        rc <> 0%Z -> result_of run = Ok None)
  /\ (state_of run !! segment_name index = None
      \/ (exists data,
            state_of run !! segment_name index = Some data
            /\ String.length data <= 1000) ->
      result_of run = Ok None)
  /\ (result_of run = Ok None
      \/ result_of run = Ok (Some (segment_name index))).
Proof.
  cbv zeta.
  destruct (generate_assets_cases env item index h fs)
    as [Hnone|(Hsome & Hlarge & (img & aud & dur & so & se & Hin) & Hzero)].
  - split; [|split; [|split]].
    + intros p Hp. rewrite Hnone in Hp. discriminate.
    + intros; exact Hnone.
    + intros; exact Hnone.
    + by left.
  - unfold exists_and_larger in Hlarge.
    destruct (state_of (generate_assets env item index h fs)
                !! segment_name index) as [data|] eqn:Hdata; [|discriminate].
    apply Nat.ltb_lt in Hlarge.
    split; [|split; [|split]].
    + intros p Hp. rewrite Hsome in Hp. injection Hp as <-.
      split; [reflexivity|]. split; [by exists data|].
      by exists img, aud, dur, so, se.
    + intros img' aud' dur' out rc so' se' Hin' Hrc.
      destruct (Hzero _ _ Hin' eq_refl) as (so2 & se2 & [= -> _ _]).
      congruence.
    + intros [Hmiss|(data' & Hd & Hle)]; simplify_eq. lia.
    + by right.
Qed.

Lemma C2_segment_renderer_witness :
  exists data,
    state_of (generate_assets Scenario.all_bad (Demo.item "T" "good") 0 [] ∅)
      !! "segment_0.mp4" = Some data
    /\ 1000 < String.length data.
Proof.
  pose proof (C2_segment_renderer Scenario.all_bad (Demo.item "T" "good")
                0 [] ∅) as H.
  cbv zeta in H. destruct H as [H _].
  destruct (H "segment_0.mp4") as (_ & Hdata & _).
  - vm_compute. reflexivity.
  - exact Hdata.
Defined.

Lemma C1_fallback_chain_witness :
  result_of (generate_audio_with_fallback Scenario.all_bad "Habari" 0 [] ∅)
  = Ok (Some "audio_0.mp3")
  /\ engines_called
       (events_of (generate_audio_with_fallback Scenario.all_bad "Habari" 0 [] ∅))
     = [EdgeTZ; EdgeKE; GTTS].
Proof.
  pose proof (C1_fallback_chain Scenario.all_bad "Habari" 0 [] ∅) as H.
  cbv zeta in H. destruct H as (_ & _ & H & _).
  destruct H as [Hrun Heng].
  - vm_compute. reflexivity.
  - vm_compute. reflexivity.
  - vm_compute. reflexivity.
  - split; [|exact Heng]. rewrite Hrun. vm_compute. reflexivity.
Defined.

(** ** The rendering loop *)

Lemma item_runs_length env items : forall i h fs,
  length (item_runs env items i h fs) = length items.
Proof.
  induction items as [|item rest IH]; intros i h fs; cbn [item_runs length].
  - reflexivity.
  - by rewrite IH.
Qed.

Lemma item_runs_lookup env items : forall i h fs k r,
  item_runs env items i h fs !! k = Some r ->
  (r.1 = None \/ r.1 = Some (segment_name (i + k)))
  /\ Forall asset_event r.2.
Proof.
  induction items as [|item rest IH]; intros i h fs k r; cbn [item_runs].
  - intros H. by rewrite lookup_nil in H.
  - destruct k as [|k]; cbn [lookup list_lookup].
    + intros [= <-]. cbn [fst snd]. split.
      * rewrite Nat.add_0_r.
        destruct (generate_assets_cases env item i h fs) as [H|[H _]];
          unfold result_of in *; rewrite H; auto.
      * apply generate_assets_emits.
    + intros H. apply IH in H. by rewrite Nat.add_succ_r.
Qed.

(** C8 (amended): the items of a round are processed one after the other, the
    processing of an item being complete before the next one starts; an item
    whose segment was rendered is followed by the pause of two seconds, an
    item whose segment failed is followed by no pause, and the processing of
    an item contains no pause of its own. *)
Theorem C8_sequential_cooldown (env : Env) (items : list news_item) (i : nat)
    (h : list event) (fs : fsys) :
  let runs := item_runs env items i h fs in
  let loop := render_items env items i [] h fs in
  length runs = length items
  /\ events_of loop = concat (map (fun r => r.2 ++ pause_after r.1) runs)
  /\ Forall (fun r =>
               sleeps r.2 = []
               /\ ((r.1 = None /\ pause_after r.1 = [])
                   \/ ((exists p, r.1 = Some p)
                       /\ pause_after r.1 = [ESleep 2]))) runs
  /\ sleeps (events_of loop) = repeat 2 (length (omap (kept ∘ fst) runs)).
Proof.
  cbv zeta.
  destruct (render_items_runs env items i [] h fs) as [H1 H2].
  split; [apply item_runs_length|]. split; [exact H2|]. split.
  - apply Forall_lookup. intros k r Hk.
    apply item_runs_lookup in Hk as [[Hr|Hr] Hev].
    + split; [by apply sleeps_assets|]. left. by rewrite Hr.
    + split; [by apply sleeps_assets|]. right. rewrite Hr. eauto.
  - rewrite H2. apply sleeps_runs, item_runs_assets.
Qed.

(** The claim as written fails: the first of two items fails, and the second
    starts right after it, with no pause in between. *)
Lemma C8_counterexample :
  let loop :=
    render_items Scenario.bad_then_good
      [Demo.item "A" "bad"; Demo.item "B" "good"] 0 [] [] ∅ in
  result_of loop = Ok ["segment_1.mp4"]
  /\ take 4 (events_of loop)
     = [ EPrint "Segment 0: Translating...";
         ETranslate "bad" (Raise "translation failed");
         EPrint "Error in segment 0: translation failed";
         EPrint "Segment 1: Translating..." ]
  /\ sleeps (events_of loop) = [2].
Proof. vm_compute. repeat split; reflexivity. Qed.

(** ** The playlist *)

Lemma not_manifest_news data r e :
  news_event e -> e <> EWrite "playlist.txt" data r.
Proof. intros H ->. exact H. Qed.

Lemma not_manifest_render data r e :
  render_event e -> e <> EWrite "playlist.txt" data r.
Proof. intros [H|H] ->; [|discriminate]. by apply H. Qed.

(** C3 (amended): the segments of a round are exactly the segments of the
    items that rendered, in processing order, item [k] giving
    [segment_<k>.mp4]; in a round with at least one segment the manifest is
    written with one line per segment in that order and is what the publisher
    is started on; in a round with no segment the manifest is not written.
    With four items of which the second and the third fail, the manifest
    holds the first and the fourth, in that order. *)
Theorem C3_manifest (env : Env) (key : string) (h : list event) (fs : fsys) :
  let news := get_news env h fs in
  let runs :=
    item_runs env (fetched env h fs) 0 (h ++ events_of news) (state_of news) in
  let segs := segments_of env h fs in
  let pre := events_of news ++ events_of (rendering env h fs) in
  let run := cycle env key h fs in
  segs = omap (kept ∘ fst) runs
  /\ length runs = length (fetched env h fs)
  /\ (forall k r,
        runs !! k = Some r -> r.1 = None \/ r.1 = Some (segment_name k))
  /\ (segs <> [] ->
      write_error env (h ++ pre) "playlist.txt" = None ->
      let written :=
        [ EWrite "playlist.txt" (playlist_text segs) (Ok tt);
          EPrint "--- [STREAMING] Pushing to YouTube ---" ] in
      exists rest,
        events_of run
        = pre ++ written
          ++ ESubprocess (stream_cmd key)
               (subprocess_run env (h ++ pre ++ written) (stream_cmd key)
                  (<["playlist.txt" := playlist_text segs]>
                     (state_of (rendering env h fs)))).1
          :: rest)
  /\ (segs = [] ->
      forall data r, ~ In (EWrite "playlist.txt" data r) (events_of run))
  /\ (forall a b,
        map fst runs = [Some a; None; None; Some b] ->
        playlist_text segs
        = "file 'segment_0.mp4'" +:+ PyStr.nl
          +:+ "file 'segment_3.mp4'" +:+ PyStr.nl).
Proof.
  cbv zeta.
  pose proof (render_items_runs env (fetched env h fs) 0 []
                (h ++ events_of (get_news env h fs))
                (state_of (get_news env h fs))) as [Hres _].
  fold (rendering env h fs) in Hres.
  rewrite rendering_ok in Hres. injection Hres as Hsegs. cbn [app] in Hsegs.
  pose proof (cycle_run env key h fs) as Hc. cbv zeta in Hc.
  split; [exact Hsegs|]. split; [apply item_runs_length|]. split; [|split; [|split]].
  - intros k r Hk. by apply item_runs_lookup in Hk as [Hk _].
  - intros Hne Hw. destruct (segments_of env h fs) as [|v vs]; [done|].
    rewrite Hc. unfold events_of at 1. cbn [snd].
    rewrite <- !app_assoc. do 2 f_equal.
    rewrite !run_bind.
    unfold write_file at 1. rewrite Hw.
    cbn [fst snd]. rewrite !run_bind. unfold print, emit. cbn [fst snd].
    rewrite !run_bind. unfold subprocess_call at 1.
    rewrite <- !app_assoc. cbn [app].
    destruct (subprocess_run env _ (stream_cmd key) _) as [r fs2].
    cbn [fst snd].
    destruct r as [u|e];
      [|unfold events_of; cbn; eexists; rewrite <- ?app_assoc; reflexivity].
    destruct (cleanup env _ fs2) as [[r3 fs3] d3].
    unfold events_of; cbn; eexists; rewrite <- ?app_assoc; reflexivity.
  - intros Hz data r Hin. rewrite Hz in Hc. rewrite Hc in Hin.
    unfold events_of at 1 in Hin. cbn [snd] in Hin.
    pose proof (get_news_emits env h fs) as Hn.
    pose proof (render_items_emits env (fetched env h fs) 0 []
                  (h ++ events_of (get_news env h fs))
                  (state_of (get_news env h fs))) as Hr.
    fold (rendering env h fs) in Hr.
    rewrite Forall_forall in Hn, Hr.
    apply list_elem_of_In in Hin.
    rewrite !elem_of_app in Hin. destruct Hin as [Hin|[Hin|Hin]].
    + by apply (not_manifest_news data r _ (Hn _ Hin)).
    + by apply (not_manifest_render data r _ (Hr _ Hin)).
    + apply list_elem_of_In in Hin. cbn in Hin.
      destruct Hin as [Hin|[Hin|[]]]; discriminate.
  - intros a b Hruns.
    set (runs := item_runs env (fetched env h fs) 0 _ _) in *.
    pose proof (item_runs_lookup env (fetched env h fs) 0
                  (h ++ events_of (get_news env h fs))
                  (state_of (get_news env h fs))) as Hlk.
    fold runs in Hlk.
    destruct runs as [|r0 [|r1 [|r2 [|r3 [|r4 runs]]]]]; try discriminate.
    injection Hruns as H0 H1 H2 H3.
    destruct (Hlk 0 r0 eq_refl) as [[E0|E0] _]; [congruence|].
    destruct (Hlk 3 r3 eq_refl) as [[E3|E3] _]; [congruence|].
    rewrite Hsegs. cbn [omap list_omap compose].
    rewrite E0, H1, H2, E3. reflexivity.
Qed.

Lemma C3_manifest_witness :
  playlist_text (segments_of Scenario.four_stories [] ∅)
  = "file 'segment_0.mp4'" +:+ PyStr.nl
    +:+ "file 'segment_3.mp4'" +:+ PyStr.nl
  /\ exists r rest,
       events_of (cycle Scenario.four_stories "k" [] ∅)
       = (events_of (get_news Scenario.four_stories [] (∅ : fsys))
          ++ events_of (rendering Scenario.four_stories [] ∅))
         ++ [ EWrite "playlist.txt"
                (playlist_text (segments_of Scenario.four_stories [] ∅))
                (Ok tt);
              EPrint "--- [STREAMING] Pushing to YouTube ---" ]
         ++ ESubprocess (stream_cmd "k") r :: rest.
Proof.
  pose proof (C3_manifest Scenario.four_stories "k" [] ∅) as H.
  cbv zeta in H. destruct H as (_ & _ & _ & Hw & _ & H4).
  split.
  - apply (H4 "segment_0.mp4" "segment_3.mp4"). vm_compute. reflexivity.
  - destruct Hw as [rest Hrest].
    + vm_compute. discriminate.
    + reflexivity.
    + eexists _, rest. exact Hrest.
Defined.

(** The claim as written fails: a round that renders one segment is followed
    by a round that renders none, and the manifest still holds the line of
    the round before. *)
Lemma C3_counterexample :
  let first := broadcast_loop Scenario.one_then_none 1 [] ∅ in
  let both := broadcast_loop Scenario.one_then_none 2 [] ∅ in
  segments_of Scenario.one_then_none [] ∅ = ["segment_0.mp4"]
  /\ segments_of Scenario.one_then_none (events_of first) (state_of first) = []
  /\ manifest (state_of both) = Some ("file 'segment_0.mp4'" +:+ PyStr.nl).
Proof. vm_compute. repeat split; reflexivity. Qed.

(** ** Strings *)

Ltac str_simpl :=
  repeat first
    [ progress change (String ?a ?s +:+ ?t) with (String a (s +:+ t))
    | progress change (EmptyString +:+ ?t) with t ].

Lemma str_app_nil_r (s : string) : s +:+ "" = s.
Proof. induction s as [|a s IH]; str_simpl; [done | by rewrite IH]. Qed.

Lemma str_app_assoc (a b c : string) : (a +:+ b) +:+ c = a +:+ b +:+ c.
Proof. induction a as [|x a IH]; str_simpl; [done | by rewrite IH]. Qed.

Lemma str_length_app (a b : string) :
  String.length (a +:+ b) = String.length a + String.length b.
Proof. induction a as [|x a IH]; str_simpl; cbn; [done | by rewrite IH]. Qed.

Lemma lstrip_length s : String.length (PyStr.lstrip s) <= String.length s.
Proof.
  induction s as [|a s IH]; cbn; [lia|].
  destruct (PyStr.is_space a); cbn; lia.
Qed.

Lemma rstrip_length s : String.length (PyStr.rstrip s) <= String.length s.
Proof.
  induction s as [|a s IH]; cbn; [lia|].
  destruct (PyStr.rstrip s); [destruct (PyStr.is_space a)|]; cbn in *; lia.
Qed.

Lemma strip_length s : String.length (PyStr.strip s) <= String.length s.
Proof.
  unfold PyStr.strip.
  pose proof (rstrip_length (PyStr.lstrip s)). pose proof (lstrip_length s). lia.
Qed.

Lemma substring_all s : String.substring 0 (String.length s) s = s.
Proof. induction s as [|a s IH]; cbn; [done | by rewrite IH]. Qed.

Lemma substring_skip a b :
  String.substring (String.length a) (String.length b) (a +:+ b) = b.
Proof.
  induction a as [|x a IH]; str_simpl; cbn; [apply substring_all | exact IH].
Qed.

Lemma endswith_app a b : PyStr.endswith (a +:+ b) b = true.
Proof.
  unfold PyStr.endswith. rewrite str_length_app.
  replace (String.length a + String.length b - String.length b)
    with (String.length a) by lia.
  rewrite substring_skip, String.eqb_refl, andb_true_r.
  apply Nat.leb_le. lia.
Qed.

Lemma no_space_app a b : no_space (a +:+ b) = no_space a && no_space b.
Proof.
  induction a as [|x a IH]; str_simpl; cbn; [done|]. by rewrite IH, andb_assoc.
Qed.

Lemma split_from_words s : forall cur,
  no_space cur = true -> Forall is_word (PyStr.split_from cur s).
Proof.
  induction s as [|a s IH]; intros cur Hcur; cbn.
  - destruct (PyStr.truthy cur) eqn:Ht; repeat constructor; assumption.
  - destruct (PyStr.is_space a) eqn:Ha.
    + destruct (PyStr.truthy cur) eqn:Ht.
      * constructor; [by split | by apply IH].
      * by apply IH.
    + apply IH. rewrite no_space_app, Hcur. cbn. by rewrite Ha.
Qed.

Lemma split_from_app w : forall cur s,
  no_space w = true ->
  PyStr.split_from cur (w +:+ s) = PyStr.split_from (cur +:+ w) s.
Proof.
  induction w as [|a w IH]; intros cur s Hw; str_simpl.
  - by rewrite str_app_nil_r.
  - cbn in Hw. apply andb_true_iff in Hw as [Ha Hw].
    apply negb_true_iff in Ha. cbn [PyStr.split_from].
    rewrite Ha, IH by done.
    rewrite str_app_assoc. by str_simpl.
Qed.

Lemma split_join ws :
  Forall is_word ws -> PyStr.split (PyStr.join " " ws) = ws.
Proof.
  induction 1 as [|w ws [Ht Hw] Hws IH]; [done|].
  unfold PyStr.split in *. destruct ws as [|w2 ws].
  - cbn [PyStr.join]. rewrite <- (str_app_nil_r w) at 1.
    rewrite split_from_app by done. str_simpl. cbn. by rewrite Ht.
  - change (PyStr.join " " (w :: w2 :: ws))
      with (w +:+ " " +:+ PyStr.join " " (w2 :: ws)).
    rewrite split_from_app by done. str_simpl.
    change (PyStr.split_from w (String " " ?s))
      with (if PyStr.truthy w then w :: PyStr.split_from "" s
            else PyStr.split_from "" s).
    by rewrite Ht, IH.
Qed.

(** ** The translator *)

(** The text chosen on lines 93-94 and cut on line 96 is what every engine
    is asked to say. *)
Lemma generate_assets_narrates env item index :
  emits (narrates item index) (generate_assets env item index).
Proof.
  unfold generate_assets. cbv zeta.
  emits_auto; cbn; try exact I.
  all: split; [reflexivity | eauto].
Qed.

(** C5 (amended): when the provider returns nothing, an empty text or a text
    of fewer than 5 characters once stripped, the title is taken verbatim;
    otherwise the provider's text is kept, and has at least 5 characters; the
    narration script made from either is never empty. *)
Theorem C5_translator_fallback (translated : option string)
    (item : news_item) :
  let text := choose_text translated item in
  let too_short t := String.length (PyStr.strip t) < 5 in
  (translated = None -> text = title item)
  /\ (forall t, translated = Some t -> too_short t -> text = title item)
  /\ (forall t, translated = Some t -> ~ too_short t ->
        text = t /\ 5 <= String.length text)
  /\ make_script text <> ""
  /\ 1 <= String.length (make_script text).
Proof.
  cbv zeta. unfold choose_text.
  split; [by intros ->|]. split; [|split; [|split]].
  - intros t -> Ht. change (default "" (Some t)) with t.
    apply Nat.ltb_lt in Ht. rewrite Ht. by rewrite orb_true_r.
  - intros t -> Ht. change (default "" (Some t)) with t.
    cbn [PyStr.truthy_opt].
    apply Nat.nlt_ge in Ht. pose proof (strip_length t) as Hl.
    destruct (String.length (PyStr.strip t) <? 5) eqn:E.
    { apply Nat.ltb_lt in E. lia. }
    destruct t as [|a t]; [cbn in Ht; lia|].
    cbn [PyStr.truthy negb orb]. split; [reflexivity | lia].
  - unfold make_script. intros H.
    apply (f_equal String.length) in H. rewrite str_length_app in H.
    cbn in H. lia.
  - unfold make_script. rewrite str_length_app. cbn. lia.
Qed.

Lemma C5_translator_fallback_witness :
  choose_text (Some "  ab  ") (Demo.item "Kichwa cha habari" "story")
  = "Kichwa cha habari".
Proof.
  pose proof (C5_translator_fallback (Some "  ab  ")
                (Demo.item "Kichwa cha habari" "story")) as H.
  cbv zeta in H. destruct H as (_ & H & _).
  apply (H "  ab  "); [reflexivity | vm_compute; lia].
Defined.

(** The claim as written fails: the provider returns an empty text and the
    title has two characters; the text that goes on, and the script, are
    shorter than 5 characters. *)
Lemma C5_counterexample :
  choose_text (Some "") (Demo.item "Hi" "story") = "Hi"
  /\ make_script (choose_text (Some "") (Demo.item "Hi" "story")) = "Hi."
  /\ String.length (choose_text (Some "") (Demo.item "Hi" "story")) < 5.
Proof. vm_compute. repeat split; lia. Qed.

(** C6 (amended): the narration script is the first 80 words of the text,
    joined by single spaces, followed by a period in every case; it agrees
    with the script of the specification exactly when those words do not end
    a sentence already, and has one more period otherwise. *)
Theorem C6_script (translated : string) :
  let words := take 80 (PyStr.split translated) in
  let truncated := PyStr.join " " words in
  make_script translated = truncated +:+ "."
  /\ PyStr.split truncated = words
  /\ length words <= 80
  /\ (length (PyStr.split translated) <= 80 -> words = PyStr.split translated)
  /\ PyStr.endswith (make_script translated) "." = true
  /\ (sentence_terminated truncated = false ->
      make_script translated = script_as_specified translated)
  /\ (sentence_terminated truncated = true ->
      make_script translated = script_as_specified translated +:+ ".").
Proof.
  cbv zeta. unfold make_script, script_as_specified.
  split; [reflexivity|]. split; [|split; [|split; [|split; [|split]]]].
  - apply split_join, Forall_take, split_from_words. reflexivity.
  - rewrite length_take. lia.
  - intros H. by apply take_ge.
  - apply endswith_app.
  - by intros ->.
  - by intros ->.
Qed.

Lemma C6_script_witness :
  make_script "Habari  njema" = "Habari njema.".
Proof.
  pose proof (C6_script "Habari  njema") as H. cbv zeta in H.
  destruct H as (_ & _ & _ & _ & _ & H & _).
  rewrite H; vm_compute; reflexivity.
Defined.

(** The claim as written fails: the text ends with a period already, and the
    script has a second one. *)
Lemma C6_counterexample :
  make_script "Habari njema." = "Habari njema.."
  /\ script_as_specified "Habari njema." = "Habari njema."
  /\ make_script "Habari njema." <> script_as_specified "Habari njema.".
Proof. vm_compute. repeat split. discriminate. Qed.

(** ** The cleanup *)

(** The loop of the cleanup over any list of distinct names of existing
    files. *)
Lemma cleanup_loop env (l : list string) :
  NoDup l ->
  forall h (fs : fsys),
    (forall f, f ∈ l -> is_Some (fs !! f)) ->
    let run :=
      for_each l
        (fun f =>
           if PyStr.endswith_any f [".mp4"; ".mp3"; ".jpg"]
           then try_except (os_remove env f) (fun _ => mret tt)
           else mret tt) h fs in
    result_of run = Ok tt
    /\ (forall f, f ∉ l \/ is_media f = false -> state_of run !! f = fs !! f)
    /\ (forall f, f ∈ l -> is_media f = true ->
          (In (ERemove f (Ok tt)) (events_of run) /\ state_of run !! f = None)
          \/ (exists e h',
                remove_error env h' f = Some e
                /\ In (ERemove f (Raise e)) (events_of run)
                /\ state_of run !! f = fs !! f)).
Proof.
  induction 1 as [|x l Hx Hl IH]; intros h fs Hex; cbv zeta.
  - cbn. split; [done|]. split; [done|]. intros f Hf. by apply elem_of_nil in Hf.
  - cbn [for_each]. rewrite run_bind. fold (is_media x).
    assert (Hex' : forall fs' : fsys,
               (forall f, f ≠ x -> fs' !! f = fs !! f) ->
               forall f, f ∈ l -> is_Some (fs' !! f)).
    { intros fs' Hfs' f Hf. rewrite Hfs'; [apply Hex; by right|].
      intros ->. contradiction. }
    destruct (is_media x) eqn:Hm.
    + unfold try_except, os_remove.
      destruct (remove_error env h x) as [e|] eqn:Herr.
      * cbn [fst snd]. unfold_monad. cbn [fst snd].
        specialize (IH (h ++ [ERemove x (Raise e)] ++ []) fs
                      (Hex' fs (fun _ _ => eq_refl))).
        cbv zeta in IH. destruct IH as (IH1 & IH2 & IH3).
        unfold result_of, state_of, events_of in *.
        rewrite app_nil_r in *.
        destruct (for_each l _ (h ++ [ERemove x (Raise e)]) fs)
          as [[r2 fs2] d2]. cbn [fst snd] in *.
        split; [exact IH1|]. split.
        { intros f [Hf|Hf]; apply IH2; [left|by right].
          intros Hin. apply Hf. by right. }
        intros f Hf Hmf. apply elem_of_cons in Hf as [->|Hf].
        { right. exists e, h. split; [exact Herr|]. split; [by left|].
          apply IH2. by left. }
        destruct (IH3 f Hf Hmf) as [[H1 H2]|(e' & h' & H1 & H2 & H3)].
        { left. split; [by right | exact H2]. }
        right. exists e', h'. split; [exact H1|]. split; [by right | exact H3].
      * destruct (Hex x) as [data Hdata]; [by left|]. rewrite Hdata.
        cbn [fst snd]. unfold_monad. cbn [fst snd].
        assert (Hdel : forall f, f ≠ x -> delete x fs !! f = fs !! f).
        { intros f Hf. by apply lookup_delete_ne. }
        specialize (IH (h ++ [ERemove x (Ok tt)]) (delete x fs)
                      (Hex' _ Hdel)).
        cbv zeta in IH. destruct IH as (IH1 & IH2 & IH3).
        unfold result_of, state_of, events_of in *.
        destruct (for_each l _ (h ++ [ERemove x (Ok tt)]) (delete x fs))
          as [[r2 fs2] d2]. cbn [fst snd] in *.
        split; [exact IH1|]. split.
        { intros f Hf.
          assert (f ≠ x) as Hne.
          { intros ->. destruct Hf as [Hf|Hf]; [apply Hf; by left|congruence]. }
          rewrite IH2, Hdel; [done|done|].
          destruct Hf as [Hf|Hf]; [left|by right].
          intros Hin. apply Hf. by right. }
        intros f Hf Hmf. apply elem_of_cons in Hf as [->|Hf].
        { left. split; [by left|]. rewrite IH2 by (by left).
          apply lookup_delete_eq. }
        assert (f ≠ x) as Hne by (intros ->; contradiction).
        destruct (IH3 f Hf Hmf) as [[H1 H2]|(e' & h' & H1 & H2 & H3)].
        { left. split; [by right | exact H2]. }
        right. exists e', h'. split; [exact H1|]. split; [by right|].
        by rewrite H3, Hdel.
    + unfold_monad. cbn [fst snd].
      specialize (IH (h ++ []) fs (Hex' fs (fun _ _ => eq_refl))).
      cbv zeta in IH. destruct IH as (IH1 & IH2 & IH3).
      unfold result_of, state_of, events_of in *. rewrite app_nil_r in *.
      destruct (for_each l _ h fs) as [[r2 fs2] d2]. cbn [fst snd] in *.
      split; [exact IH1|]. split.
      { intros f [Hf|Hf]; apply IH2; [left|by right].
        intros Hin. apply Hf. by right. }
      intros f Hf Hmf. apply elem_of_cons in Hf as [->|Hf]; [congruence|].
      apply (IH3 f Hf Hmf).
Qed.

(** C9: the cleanup never raises; it leaves every file whose name does not
    end in .mp4, .mp3 or .jpg as it was, the manifest among them; every file
    whose name has one of these endings, whichever round or run created it,
    is removed, unless its removal fails, in which case the error is dropped
    and the file stays as it was. *)
Theorem C9_cleanup (env : Env) (h : list event) (fs : fsys) :
  let run := cleanup env h fs in
  result_of run = Ok tt
  /\ (forall f, is_media f = false -> state_of run !! f = fs !! f)
  /\ state_of run !! "playlist.txt" = fs !! "playlist.txt"
  /\ (forall f data, is_media f = true -> fs !! f = Some data ->
        (In (ERemove f (Ok tt)) (events_of run) /\ state_of run !! f = None)
        \/ (exists e h',
              remove_error env h' f = Some e
              /\ In (ERemove f (Raise e)) (events_of run)
              /\ state_of run !! f = Some data))
  /\ ((forall h' f, remove_error env h' f = None) ->
      forall f, is_media f = true -> state_of run !! f = None).
Proof.
  cbv zeta. unfold cleanup. rewrite run_bind. unfold get. cbn [fst snd].
  assert (Hin : forall f, f ∈ listdir fs <-> is_Some (fs !! f)).
  { intros f. unfold listdir. rewrite list_elem_of_fmap. split.
    - intros ([k v] & -> & Hkv). apply elem_of_map_to_list in Hkv. eauto.
    - intros [v Hv]. exists (f, v). split; [done|].
      by apply elem_of_map_to_list. }
  pose proof (cleanup_loop env (listdir fs) (NoDup_fst_map_to_list fs)
                (h ++ []) fs (fun f Hf => proj1 (Hin f) Hf)) as H.
  cbv zeta in H. destruct H as (H1 & H2 & H3).
  unfold result_of, state_of, events_of in *.
  destruct (for_each (listdir fs) _ (h ++ []) fs) as [[r2 fs2] d2].
  cbn [fst snd app] in *.
  split; [exact H1|]. split; [intros f Hf; apply H2; by right|].
  split; [apply H2; by right|]. split.
  - intros f data Hm Hdata.
    destruct (H3 f) as [H|(e & h' & Ha & Hb & Hc)]; [apply Hin; eauto|done|by left|].
    right. exists e, h'. by rewrite Hc.
  - intros Hnone f Hm.
    destruct (fs !! f) as [data|] eqn:Hdata.
    + destruct (H3 f) as [[_ H]|(e & h' & Ha & _)];
        [apply Hin; eauto|done|done|].
      rewrite Hnone in Ha. discriminate.
    + rewrite H2; [done|]. left. intros Hf. apply Hin in Hf.
      rewrite Hdata in Hf. by destruct Hf.
Qed.

Lemma C9_cleanup_witness :
  state_of (cleanup CleanupScenario.env [] CleanupScenario.dir)
    !! "old_holiday.jpg" = None
  \/ exists e h',
       remove_error CleanupScenario.env h' "old_holiday.jpg" = Some e
       /\ In (ERemove "old_holiday.jpg" (Raise e))
            (events_of (cleanup CleanupScenario.env [] CleanupScenario.dir))
       /\ state_of (cleanup CleanupScenario.env [] CleanupScenario.dir)
            !! "old_holiday.jpg" = Some (Demo.blob 7).
Proof.
  pose proof (C9_cleanup CleanupScenario.env [] CleanupScenario.dir) as H.
  cbv zeta in H. destruct H as (_ & _ & _ & H & _).
  destruct (H "old_holiday.jpg" (Demo.blob 7)) as [[_ Hgone]|Hkept].
  - vm_compute. reflexivity.
  - vm_compute. reflexivity.
  - left. exact Hgone.
  - right. exact Hkept.
Defined.

(** ** The feed fetcher *)

(** One entry: either one article is appended, or the extraction raises and
    [articles] is as before. *)
Lemma extract_entry_cases env e h articles :
  let run := extract_entry env e h articles in
  (result_of run = Ok tt
   /\ exists it,
        state_of run = articles ++ [it]
        /\ title it = PyStr.or_else (default "" (e_title e)) "Habari Mpya")
  \/ ((exists x, result_of run = Raise x) /\ state_of run = articles).
Proof.
  cbv zeta. unfold extract_entry, attr, time_call. unfold_monad.
  unfold result_of, state_of.
  destruct (pick_image e) as [img|x]; [|right; cbn; eauto].
  destruct (PyStr.truthy_opt img);
    (destruct (e_title e) as [t|]; [|right; cbn; eauto]);
    (destruct (e_summary e) as [s|]; [|right; cbn; eauto]);
    destruct (PyStr.truthy s); cbn; left; eauto.
Qed.

Lemma entries_append env es : forall h articles,
  exists new, state_of (for_each es (extract_entry env) h articles) = articles ++ new.
Proof.
  induction es as [|e es IH]; intros h articles; cbn [for_each].
  - exists []. by rewrite app_nil_r.
  - rewrite run_bind.
    destruct (extract_entry_cases env e h articles)
      as [(Hr & it & Hs & _)|((x & Hr) & Hs)];
      unfold result_of, state_of in *;
      destruct (extract_entry env e h articles) as [[r s1] d1];
      cbn [fst snd] in *; subst r s1.
    + destruct (IH (h ++ d1) (articles ++ [it])) as [new Hnew].
      unfold state_of in Hnew.
      destruct (for_each es _ (h ++ d1) (articles ++ [it])) as [[r2 s2] d2].
      cbn [fst snd] in *. exists (it :: new). by rewrite Hnew, <- app_assoc.
    + exists []. by rewrite app_nil_r.
Qed.

(** The loop over the entries of a feed, up to the entry that raises. *)
Lemma entries_until_failure env pre : forall bad post h articles,
  (forall e h' s', e ∈ pre -> result_of (extract_entry env e h' s') = Ok tt) ->
  (forall h' s', exists x, result_of (extract_entry env bad h' s') = Raise x) ->
  let run := for_each (pre ++ bad :: post) (extract_entry env) h articles in
  (exists x, result_of run = Raise x)
  /\ exists new,
       state_of run = articles ++ new
       /\ Forall2
            (fun e it =>
               title it = PyStr.or_else (default "" (e_title e)) "Habari Mpya")
            pre new.
Proof.
  induction pre as [|e pre IH]; intros bad post h articles Hpre Hbad; cbv zeta.
  - cbn [app for_each]. rewrite run_bind.
    destruct (Hbad h articles) as [x Hx].
    destruct (extract_entry_cases env bad h articles)
      as [(Hr & _)|(_ & Hs)]; [congruence|].
    unfold result_of, state_of in *.
    destruct (extract_entry env bad h articles) as [[r s1] d1].
    cbn [fst snd] in *. subst r s1.
    split; [by exists x|]. exists []. by rewrite app_nil_r.
  - cbn [app for_each]. rewrite run_bind.
    pose proof (Hpre e h articles ltac:(by left)) as Hok.
    destruct (extract_entry_cases env e h articles)
      as [(_ & it & Hs & Ht)|((x & Hr) & _)]; [|congruence].
    unfold result_of, state_of in *.
    destruct (extract_entry env e h articles) as [[r s1] d1].
    cbn [fst snd] in *. subst r s1.
    destruct (IH bad post (h ++ d1) (articles ++ [it])) as [[x Hx] (new & Hn & Hf)].
    { intros e' h' s' He'. apply Hpre. by right. }
    { exact Hbad. }
    unfold result_of, state_of in *.
    destruct (for_each (pre ++ bad :: post) _ (h ++ d1) (articles ++ [it]))
      as [[r2 s2] d2].
    cbn [fst snd] in *. split; [by exists x|].
    exists (it :: new). split; [by rewrite Hn, <- app_assoc|].
    by constructor.
Qed.

Lemma extract_entry_emits env e : emits entry_event (extract_entry env e).
Proof. unfold extract_entry. emits_auto; exact I. Qed.

Lemma feeds_requested_app d1 d2 :
  feeds_requested (d1 ++ d2) = feeds_requested d1 ++ feeds_requested d2.
Proof. apply omap_app. Qed.

Lemma feeds_requested_entries d :
  Forall entry_event d -> feeds_requested d = [].
Proof.
  induction 1 as [|e d He _ IH]; [done|].
  destruct e; cbn in *; try done; exact IH.
Qed.

(** One feed: never raises, requests its own address and no other, and only
    appends to [articles]. *)
Lemma fetch_feed_run env url h articles :
  let run := fetch_feed env url h articles in
  result_of run = Ok tt
  /\ feeds_requested (events_of run) = [url]
  /\ exists new, state_of run = articles ++ new.
Proof.
  cbv zeta. unfold fetch_feed, try_except. rewrite run_bind.
  unfold feedparser_call. cbn [fst snd].
  destruct (feedparser_parse env h url) as [es|x].
  - pose proof (emits_for_each entry_event (take 6 es) (extract_entry env)
                  (extract_entry_emits env)
                  (h ++ [EFeedParse url (Ok es)]) articles) as Hev.
    destruct (entries_append env (take 6 es)
                (h ++ [EFeedParse url (Ok es)]) articles) as [new Hnew].
    unfold result_of, state_of, events_of in *.
    destruct (for_each (take 6 es) _ _ articles) as [[[u|x] s1] d1];
      cbn [fst snd] in *; subst s1.
    + destruct u. split; [done|]. split; [|eauto].
      by rewrite feeds_requested_app, (feeds_requested_entries _ Hev).
    + split; [done|]. split; [|eauto].
      unfold print, emit. cbn [fst snd].
      rewrite !feeds_requested_app, (feeds_requested_entries _ Hev).
      reflexivity.
  - cbn. split; [done|]. split; [done|]. exists []. by rewrite app_nil_r.
Qed.

(** The fetcher, feed by feed. *)
Lemma get_news_run env h (fs : fsys) :
  let h1 := h ++ [EPrint fetch_banner] in
  let r1 := fetch_feed env "https://www.bbc.com/swahili/index.xml" h1 [] in
  let r2 :=
    fetch_feed env "https://www.dw.com/sw/habari/rss-30740-swahili"
      (h1 ++ events_of r1) (state_of r1) in
  get_news env h fs
  = (Ok (state_of r2), fs, EPrint fetch_banner :: events_of r1 ++ events_of r2).
Proof.
  cbv zeta. unfold get_news. cbn [RSS_FEEDS for_each]. fold fetch_banner.
  unfold with_local, print, emit. rewrite !run_bind. cbn [fst snd].
  destruct (fetch_feed_run env "https://www.bbc.com/swahili/index.xml"
              (h ++ [EPrint fetch_banner]) []) as (H1 & _).
  unfold result_of, state_of, events_of in *.
  destruct (fetch_feed env "https://www.bbc.com/swahili/index.xml" _ [])
    as [[r1 s1] d1]. cbn [fst snd] in *. subst r1.
  rewrite run_bind.
  destruct (fetch_feed_run env "https://www.dw.com/sw/habari/rss-30740-swahili"
              ((h ++ [EPrint fetch_banner]) ++ d1) s1) as (H2 & _).
  unfold result_of in H2.
  destruct (fetch_feed env "https://www.dw.com/sw/habari/rss-30740-swahili" _ s1)
    as [[r2 s2] d2]. cbn [fst snd] in *. subst r2.
  cbn. by rewrite !app_nil_r.
Qed.

(** C10: when the extraction of an entry of a feed raises, the entries of
    that feed before it have each given their article, which stay in the
    result, the failing entry and the entries after it give none, the
    exception does not leave the feed, and every feed of the list is
    requested whatever happened in the feeds before it. *)
Theorem C10_entry_failure (env : Env) (url : string) (h : list event)
    (articles : list news_item) (es pre post : list entry) (bad : entry) :
  feedparser_parse env h url = Ok es ->
  take 6 es = pre ++ bad :: post ->
  (forall e h' s', e ∈ pre -> result_of (extract_entry env e h' s') = Ok tt) ->
  (forall h' s', exists x, result_of (extract_entry env bad h' s') = Raise x) ->
  let run := fetch_feed env url h articles in
  result_of run = Ok tt
  /\ (exists new,
        state_of run = articles ++ new
        /\ Forall2
             (fun e it =>
                title it
                = PyStr.or_else (default "" (e_title e)) "Habari Mpya")
             pre new)
  /\ (forall h0 (fs0 : fsys),
        feeds_requested (events_of (get_news env h0 fs0)) = RSS_FEEDS)
  /\ (forall h0 (fs0 : fsys),
        let h1 := h0 ++ [EPrint fetch_banner] in
        let r1 := fetch_feed env "https://www.bbc.com/swahili/index.xml" h1 [] in
        let r2 :=
          fetch_feed env "https://www.dw.com/sw/habari/rss-30740-swahili"
            (h1 ++ events_of r1) (state_of r1) in
        result_of (get_news env h0 fs0) = Ok (state_of r2)
        /\ exists more, state_of r2 = state_of r1 ++ more).
Proof.
  intros Hparse Htake Hpre Hbad. cbv zeta.
  split; [apply fetch_feed_run|]. split; [|split].
  - unfold fetch_feed, try_except. rewrite run_bind.
    unfold feedparser_call. rewrite Hparse, Htake. cbn [fst snd].
    destruct (entries_until_failure env pre bad post
                (h ++ [EFeedParse url (Ok es)]) articles Hpre Hbad)
      as [[x Hx] (new & Hn & Hf)].
    unfold result_of, state_of in *.
    destruct (for_each (pre ++ bad :: post) _ _ articles) as [[r s1] d1].
    cbn [fst snd] in *. subst r s1. unfold print, emit. cbn. eauto.
  - intros h0 fs0. pose proof (get_news_run env h0 fs0) as Hg.
    cbv zeta in Hg. rewrite Hg. unfold events_of at 1. cbn [snd].
    change (EPrint fetch_banner :: ?d) with ([EPrint fetch_banner] ++ d).
    rewrite !feeds_requested_app.
    destruct (fetch_feed_run env "https://www.bbc.com/swahili/index.xml"
                (h0 ++ [EPrint fetch_banner]) []) as (_ & -> & _).
    destruct (fetch_feed_run env "https://www.dw.com/sw/habari/rss-30740-swahili"
                ((h0 ++ [EPrint fetch_banner])
                 ++ events_of (fetch_feed env "https://www.bbc.com/swahili/index.xml"
                                 (h0 ++ [EPrint fetch_banner]) []))
                (state_of (fetch_feed env "https://www.bbc.com/swahili/index.xml"
                             (h0 ++ [EPrint fetch_banner]) [])))
      as (_ & -> & _).
    reflexivity.
  - intros h0 fs0. pose proof (get_news_run env h0 fs0) as Hg.
    cbv zeta in Hg. rewrite Hg. split; [reflexivity|].
    apply fetch_feed_run.
Qed.

Lemma C10_entry_failure_witness :
  exists new,
    state_of (fetch_feed FeedScenario.env "https://www.bbc.com/swahili/index.xml"
                [] [])
    = [] ++ new
    /\ Forall2
         (fun e it =>
            title it = PyStr.or_else (default "" (e_title e)) "Habari Mpya")
         [Demo.plain_entry "First" "one"] new.
Proof.
  refine (proj1 (proj2
    (C10_entry_failure FeedScenario.env "https://www.bbc.com/swahili/index.xml"
       [] [] FeedScenario.entries [Demo.plain_entry "First" "one"]
       [Demo.plain_entry "Third" "three"] FeedScenario.malformed
       _ _ _ _))).
  - reflexivity.
  - reflexivity.
  - intros e h' s' He. apply list_elem_of_singleton in He. subst e. reflexivity.
  - intros h' s'. eexists. reflexivity.
Defined.

(** * Further properties of the program *)

(** ** The feed fetcher, continued *)

Lemma or_else_truthy a b :
  PyStr.truthy b = true -> PyStr.truthy (PyStr.or_else a b) = true.
Proof. intros Hb. unfold PyStr.or_else. by destruct (PyStr.truthy a) eqn:Ha. Qed.

(** An entry gives at most one article, and one with no empty field. *)
Lemma extract_entry_filled env e h articles :
  let run := extract_entry env e h articles in
  (exists it, state_of run = articles ++ [it] /\ filled it = true)
  \/ state_of run = articles.
Proof.
  cbv zeta. unfold extract_entry, attr, time_call. unfold_monad.
  unfold state_of, filled.
  destruct (pick_image e) as [img|x]; [|right; reflexivity].
  destruct (PyStr.truthy_opt img) eqn:Himg;
    (destruct (e_title e) as [t|]; [|right; reflexivity]);
    (destruct (e_summary e) as [s|]; [|right; reflexivity]);
    destruct (PyStr.truthy s) eqn:Hs; cbn [fst snd]; left; eexists;
    (split; [reflexivity|]); cbn [title summary image];
    rewrite ?or_else_truthy by reflexivity; rewrite ?Hs; cbn [andb];
    try reflexivity.
  all: destruct img as [u|]; [exact Himg | discriminate].
Qed.

Lemma entries_filled env es : forall h articles,
  Forall (fun it => filled it = true) articles ->
  let run := for_each es (extract_entry env) h articles in
  Forall (fun it => filled it = true) (state_of run)
  /\ length (state_of run) <= length articles + length es.
Proof.
  induction es as [|e es IH]; intros h articles Hall; cbv zeta;
    cbn [for_each].
  - cbn. split; [exact Hall | lia].
  - rewrite run_bind.
    pose proof (extract_entry_filled env e h articles) as He. cbv zeta in He.
    unfold state_of in *.
    destruct (extract_entry env e h articles) as [[r s1] d1].
    cbn [fst snd] in *.
    assert (Hs1 : Forall (fun it => filled it = true) s1
                  /\ length s1 <= S (length articles)).
    { destruct He as [(it & -> & Hit)| ->].
      - split; [apply Forall_app; split; [done | by constructor]|].
        rewrite length_app. cbn. lia.
      - split; [done | lia]. }
    destruct Hs1 as [Hs1 Hlen].
    destruct r as [u|x]; [|cbn; split; [done | lia]].
    specialize (IH (h ++ d1) s1 Hs1). cbv zeta in IH.
    destruct (for_each es (extract_entry env) (h ++ d1) s1) as [[r2 s2] d2].
    cbn [fst snd length] in *. destruct IH as [IH1 IH2]. split; [done | lia].
Qed.

Lemma fetch_feed_filled env url h articles :
  Forall (fun it => filled it = true) articles ->
  let run := fetch_feed env url h articles in
  Forall (fun it => filled it = true) (state_of run)
  /\ length (state_of run) <= length articles + 6.
Proof.
  intros Hall. cbv zeta. unfold fetch_feed, try_except. rewrite run_bind.
  unfold feedparser_call. cbn [fst snd].
  destruct (feedparser_parse env h url) as [es|x]; [|cbn; split; [done | lia]].
  pose proof (entries_filled env (take 6 es)
                (h ++ [EFeedParse url (Ok es)]) articles Hall) as H.
  cbv zeta in H. rewrite length_take in H. unfold state_of, print, emit in *.
  destruct (for_each (take 6 es) _ _ articles) as [[[u|x] s1] d1];
    cbn [fst snd] in *; destruct H as [H1 H2]; (split; [exact H1 | lia]).
Qed.

Lemma choose_text_filled tr it :
  filled it = true -> choose_text tr it <> "".
Proof.
  unfold filled, choose_text. intros H.
  apply andb_true_iff in H as [H _]. apply andb_true_iff in H as [Ht _].
  destruct (PyStr.truthy_opt tr) eqn:Htr; cbn [negb orb].
  - destruct tr as [t|]; [|discriminate]. change (default "" (Some t)) with t.
    destruct (String.length (PyStr.strip t) <? 5)%nat.
    + intros E. rewrite E in Ht. discriminate.
    + intros E. rewrite E in Htr. discriminate.
  - intros E. rewrite E in Ht. discriminate.
Qed.


(** X2: every article the fetcher returns has a title, a summary and an
    image address that are not empty; hence the text chosen for the narration
    of a fetched article is never empty, whatever the translator answers. *)
Theorem X2_articles_filled (env : Env) (h : list event) (fs : fsys) :
  Forall (fun it => title it <> "" /\ summary it <> "" /\ image it <> "")
    (fetched env h fs)
  /\ forall it tr, it ∈ fetched env h fs -> choose_text tr it <> "".
Proof.
  assert (Hall : Forall (fun it => filled it = true) (fetched env h fs)).
  { pose proof (get_news_run env h fs) as Hg. cbv zeta in Hg.
    unfold fetched. rewrite Hg. cbn [result_of fst].
    pose proof (fetch_feed_filled env "https://www.bbc.com/swahili/index.xml"
                  (h ++ [EPrint fetch_banner]) [] (Forall_nil_2 _)) as [H1 _].
    apply fetch_feed_filled, H1. }
  split.
  - eapply Forall_impl; [exact Hall|]. intros it Hit. unfold filled in Hit.
    apply andb_true_iff in Hit as [Hit Hi].
    apply andb_true_iff in Hit as [Ht Hs].
    repeat split; intros E; rewrite E in *; discriminate.
  - intros it tr Hin. apply choose_text_filled.
    rewrite Forall_forall in Hall. by apply Hall.
Qed.

Lemma X2_articles_filled_witness :
  choose_text (Some "")
    {| title := "First"; summary := "one";
       image := "https://picsum.photos/1920/1080?random=2" |}
  <> "".
Proof.
  apply (proj2 (X2_articles_filled FeedScenario.env [] ∅)).
  apply list_elem_of_In. vm_compute. left. reflexivity.
Defined.

Lemma image_links_none ls img :
  Forall (fun l => image_link l = false) ls ->
  fold_left
    (fun img_url l =>
       if PyStr.contains "image" (default "" (link_type l))
       then link_href l else img_url)
    ls img = img.
Proof.
  intros H. revert img. induction H as [|l ls Hl _ IH]; intros img; cbn.
  - reflexivity.
  - unfold image_link in Hl. rewrite Hl. apply IH.
Qed.

(** X3: without media attachments, the image of an entry is the address of
    the last link whose declared type contains the word image, links after
    it of other types and links before it of any type making no difference;
    with media attachments the address of the first attachment is taken and
    the links are not looked at. *)
Theorem X3_image_policy (e : entry) :
  (forall before l after,
     e_media_content e = None ->
     e_links e = Some (before ++ l :: after) ->
     image_link l = true ->
     Forall (fun l' => image_link l' = false) after ->
     pick_image e = Ok (link_href l))
  /\ (forall u rest,
        e_media_content e = Some (Some u :: rest) ->
        pick_image e = Ok (Some u)).
Proof.
  split.
  - intros before l after Hm Hl Himg Hafter. unfold pick_image.
    rewrite Hm, Hl. f_equal. rewrite fold_left_app. cbn [fold_left].
    unfold image_link in Himg. rewrite Himg.
    by apply image_links_none.
  - intros u rest Hm. unfold pick_image. by rewrite Hm.
Qed.

Lemma X3_image_policy_witness :
  pick_image LinkScenario.two_images = Ok (Some "b.jpg").
Proof.
  refine (proj1 (X3_image_policy LinkScenario.two_images)
            [ {| link_type := Some "text/html"; link_href := Some "page" |};
              {| link_type := Some "image/png"; link_href := Some "a.png" |} ]
            {| link_type := Some "image/jpeg"; link_href := Some "b.jpg" |}
            [] _ _ _ _).
  - reflexivity.
  - reflexivity.
  - vm_compute. reflexivity.
  - constructor.
Defined.

(** X4: when the parser raises on the first feed, the failure is logged,
    that feed gives no article, and the fetcher goes on to the second feed,
    whose articles are the result. *)
Theorem X4_feed_failure (env : Env) (h : list event) (fs : fsys) (x : exn) :
  feedparser_parse env (h ++ [EPrint fetch_banner])
    "https://www.bbc.com/swahili/index.xml" = Raise x ->
  let failed :=
    [ EPrint fetch_banner;
      EFeedParse "https://www.bbc.com/swahili/index.xml" (Raise x);
      EPrint ("Feed error: " +:+ x) ] in
  let second :=
    fetch_feed env "https://www.dw.com/sw/habari/rss-30740-swahili"
      (h ++ failed) [] in
  fetched env h fs = state_of second
  /\ events_of (get_news env h fs) = failed ++ events_of second.
Proof.
  intros Hx. cbv zeta.
  pose proof (get_news_run env h fs) as Hg. cbv zeta in Hg.
  unfold fetched. rewrite Hg. cbn [result_of events_of fst snd].
  assert (H1 : fetch_feed env "https://www.bbc.com/swahili/index.xml"
                 (h ++ [EPrint fetch_banner]) []
               = (Ok tt, [],
                  [EFeedParse "https://www.bbc.com/swahili/index.xml" (Raise x);
                   EPrint ("Feed error: " +:+ x)])).
  { unfold fetch_feed, try_except. rewrite run_bind.
    unfold feedparser_call. rewrite Hx. reflexivity. }
  rewrite H1. cbn [state_of events_of fst snd].
  rewrite <- app_assoc. split; reflexivity.
Qed.

Lemma X4_feed_failure_witness :
  map title (fetched LinkScenario.first_feed_down [] ∅) = ["Other"].
Proof.
  rewrite (proj1 (X4_feed_failure LinkScenario.first_feed_down [] ∅
                    "timed out" eq_refl)).
  vm_compute. reflexivity.
Defined.

(** ** The text sent to the engines *)

Lemma chars_app a b : chars (a +:+ b) = chars a ++ chars b.
Proof.
  unfold chars. induction a as [|x a IH]; str_simpl; cbn; [done|].
  by rewrite IH.
Qed.

Lemma remove_char_gone c s : ~ In c (chars (PyStr.remove_char c s)).
Proof.
  induction s as [|a s IH]; cbn; [tauto|].
  destruct (Ascii.eqb a c) eqn:E; [exact IH|].
  cbn. intros [->|H]; [|tauto]. by rewrite Ascii.eqb_refl in E.
Qed.

Lemma remove_char_sub c s x :
  In x (chars (PyStr.remove_char c s)) -> In x (chars s).
Proof.
  induction s as [|a s IH]; cbn; [tauto|].
  destruct (Ascii.eqb a c); cbn; tauto.
Qed.

Lemma remove_char_keeps c s x :
  x <> c -> In x (chars s) -> In x (chars (PyStr.remove_char c s)).
Proof.
  intros Hx. induction s as [|a s IH]; cbn; [tauto|].
  intros [->|H].
  - apply Ascii.eqb_neq in Hx. rewrite Hx. by left.
  - destruct (Ascii.eqb a c); cbn; tauto.
Qed.

Lemma remove_char_id c s : ~ In c (chars s) -> PyStr.remove_char c s = s.
Proof.
  induction s as [|a s IH]; cbn; [done|]. intros H.
  destruct (Ascii.eqb a c) eqn:E.
  - apply Ascii.eqb_eq in E. tauto.
  - rewrite IH; tauto.
Qed.

Lemma replace_char_gone c d s :
  c <> d -> ~ In c (chars (PyStr.replace_char c d s)).
Proof.
  intros Hcd. induction s as [|a s IH]; cbn; [tauto|].
  intros [H|H]; [|tauto].
  destruct (Ascii.eqb a c) eqn:E; [congruence|].
  subst. by rewrite Ascii.eqb_refl in E.
Qed.

Lemma replace_char_sub c d s x :
  In x (chars (PyStr.replace_char c d s)) -> x = d \/ In x (chars s).
Proof.
  induction s as [|a s IH]; cbn; [tauto|].
  destruct (Ascii.eqb a c); intros [H|H]; subst; tauto.
Qed.

Lemma replace_char_keeps c d s x :
  x <> c -> In x (chars s) -> In x (chars (PyStr.replace_char c d s)).
Proof.
  intros Hx. induction s as [|a s IH]; cbn; [tauto|].
  intros [->|H]; [|tauto].
  apply Ascii.eqb_neq in Hx. rewrite Hx. by left.
Qed.

Lemma replace_char_id c d s :
  ~ In c (chars s) -> PyStr.replace_char c d s = s.
Proof.
  induction s as [|a s IH]; cbn; [done|]. intros H.
  destruct (Ascii.eqb a c) eqn:E.
  - apply Ascii.eqb_eq in E. tauto.
  - rewrite IH; tauto.
Qed.

Lemma lstrip_sub s x : In x (chars (PyStr.lstrip s)) -> In x (chars s).
Proof.
  induction s as [|a s IH]; cbn; [tauto|].
  destruct (PyStr.is_space a); cbn; tauto.
Qed.

Lemma rstrip_sub s x : In x (chars (PyStr.rstrip s)) -> In x (chars s).
Proof.
  induction s as [|a s IH]; cbn; [tauto|].
  destruct (PyStr.rstrip s) as [|b r]; [destruct (PyStr.is_space a)|];
    cbn in *; tauto.
Qed.

(** What [lstrip] returns is empty or starts with a character that is not
    whitespace. *)
Lemma lstrip_head s :
  PyStr.lstrip s = ""
  \/ exists a r, PyStr.lstrip s = String a r /\ PyStr.is_space a = false.
Proof.
  induction s as [|a s IH]; cbn; [by left|].
  destruct (PyStr.is_space a) eqn:E; [exact IH | right; eauto].
Qed.

Lemma rstrip_head a r :
  PyStr.is_space a = false ->
  exists r', PyStr.rstrip (String a r) = String a r'.
Proof.
  intros Ha. cbn. destruct (PyStr.rstrip r); [rewrite Ha|]; eauto.
Qed.

Lemma rstrip_idem s : PyStr.rstrip (PyStr.rstrip s) = PyStr.rstrip s.
Proof.
  induction s as [|a s IH]; cbn; [done|].
  destruct (PyStr.rstrip s) as [|b r] eqn:E.
  - destruct (PyStr.is_space a) eqn:Ha; cbn; [done|]. by rewrite Ha.
  - change (PyStr.rstrip (String a (String b r)))
      with (match PyStr.rstrip (String b r) with
            | EmptyString =>
                if PyStr.is_space a then EmptyString else String a EmptyString
            | r0 => String a r0
            end).
    by rewrite IH.
Qed.

Lemma strip_idem s : PyStr.strip (PyStr.strip s) = PyStr.strip s.
Proof.
  unfold PyStr.strip.
  destruct (lstrip_head s) as [E|(a & r & E & Ha)]; rewrite E; [done|].
  destruct (rstrip_head a r Ha) as [r' E'].
  assert (PyStr.lstrip (PyStr.rstrip (String a r)) = PyStr.rstrip (String a r))
    as ->.
  { rewrite E'. cbn. by rewrite Ha. }
  apply rstrip_idem.
Qed.

Lemma rstrip_blank s x :
  PyStr.rstrip s = "" -> In x (chars s) -> PyStr.is_space x = true.
Proof.
  induction s as [|a s IH]; cbn; [tauto|].
  destruct (PyStr.rstrip s) as [|b r]; [|discriminate].
  destruct (PyStr.is_space a) eqn:Ha; [|discriminate].
  intros _ [<-|H]; [done | by apply IH].
Qed.

Lemma lstrip_blank s x :
  PyStr.lstrip s = "" -> In x (chars s) -> PyStr.is_space x = true.
Proof.
  induction s as [|a s IH]; cbn; [tauto|].
  destruct (PyStr.is_space a) eqn:Ha; [|discriminate].
  intros E [<-|H]; [done | by apply IH].
Qed.

Lemma strip_blank s x :
  PyStr.strip s = "" -> In x (chars s) -> PyStr.is_space x = true.
Proof.
  unfold PyStr.strip. intros E.
  destruct (lstrip_head s) as [E0|(a & r & E0 & Ha)].
  - by apply lstrip_blank.
  - rewrite E0 in E. destruct (rstrip_head a r Ha) as [r' E'].
    rewrite E' in E. discriminate.
Qed.

(** X5: the text handed to the engines holds no double quote, no single
    quote and no line feed, has no whitespace at either end, and cleaning it
    again changes nothing. *)
Theorem X5_clean (text : string) :
  let c := clean text in
  (forall ch, In ch (chars c) ->
     ch <> PyStr.dquote /\ ch <> PyStr.squote /\ ch <> ascii_of_nat 10)
  /\ PyStr.strip c = c
  /\ clean c = c.
Proof.
  cbv zeta.
  assert (Hno : forall ch, In ch (chars (clean text)) ->
            ch <> PyStr.dquote /\ ch <> PyStr.squote /\ ch <> ascii_of_nat 10).
  { intros ch Hin. unfold clean, PyStr.strip in Hin.
    apply rstrip_sub, lstrip_sub in Hin.
    split; [|split]; intros ->.
    - apply replace_char_sub in Hin as [Hin|Hin]; [discriminate|].
      apply remove_char_sub in Hin. by apply remove_char_gone in Hin.
    - apply replace_char_sub in Hin as [Hin|Hin]; [discriminate|].
      by apply remove_char_gone in Hin.
    - by apply replace_char_gone in Hin. }
  split; [exact Hno|]. split.
  - unfold clean. apply strip_idem.
  - assert (Hstrip : PyStr.strip (clean text) = clean text)
      by (unfold clean; apply strip_idem).
    unfold clean at 1.
    rewrite (remove_char_id PyStr.dquote) by (intros H; by apply Hno in H as (? & ? & ?)).
    rewrite (remove_char_id PyStr.squote) by (intros H; by apply Hno in H as (? & ? & ?)).
    rewrite replace_char_id by (intros H; by apply Hno in H as (? & ? & ?)).
    exact Hstrip.
Qed.

Lemma X5_clean_witness : "H"%char <> PyStr.dquote.
Proof.
  refine (proj1 (proj1 (X5_clean "  'Habari' ") "H"%char _)).
  vm_compute. left. reflexivity.
Defined.

(** X6: the text handed to the engines for a narration script is never
    empty, so no engine called while an item is processed is asked to say an
    empty text. *)
Theorem X6_narration_not_empty (translated : string) :
  clean (make_script translated) <> ""
  /\ forall env item index h fs,
       Forall (fun e => match e with
                        | ETts _ text _ _ => text <> ""
                        | _ => True
                        end)
         (events_of (generate_assets env item index h fs)).
Proof.
  assert (Hne : forall t, clean (make_script t) <> "").
  { intros t E. unfold clean in E.
    assert (Hin : In "."%char
                    (chars (PyStr.replace_char (ascii_of_nat 10) " "
                              (PyStr.remove_char PyStr.squote
                                 (PyStr.remove_char PyStr.dquote
                                    (make_script t)))))).
    { apply replace_char_keeps; [discriminate|].
      apply remove_char_keeps; [discriminate|].
      apply remove_char_keeps; [discriminate|].
      unfold make_script. rewrite chars_app. apply in_or_app. right. by left. }
    pose proof (strip_blank _ _ E Hin) as Hsp. discriminate. }
  split; [apply Hne|].
  intros env item index h fs.
  eapply Forall_impl; [apply generate_assets_narrates|].
  intros [] H; try exact I. destruct H as (_ & tr & ->). apply Hne.
Qed.

(** ** The narration synthesizer, continued *)

Lemma attempt_sound env index g ct out h fs :
  (attempt env index g ct out h fs).1.1 = true ->
  exists_and_larger (attempt env index g ct out h fs).1.2 out 100 = true.
Proof.
  unfold attempt.
  destruct (tts_save env _ g ct out fs) as [[[]|e] fs1]; cbn; [done|discriminate].
Qed.

Lemma attempt_events env text index g h fs :
  Forall (synthesis_event text index)
    (attempt env index g (clean text) (audio_name index) h fs).2.
Proof.
  unfold attempt.
  destruct (tts_save env _ g _ _ fs) as [[[]|e] fs1]; destruct g; cbn;
    repeat constructor.
Qed.

(** X7: the synthesizer never raises; it returns nothing or the audio file
    of the index, which then exists with more than 100 bytes; it calls one to
    three engines, all on the same cleaned text and the same file, and does
    nothing else to the outside world but log. *)
Theorem X7_audio_result (env : Env) (text : string) (index : nat)
    (h : list event) (fs : fsys) :
  let run := generate_audio_with_fallback env text index h fs in
  (result_of run = Ok None
   \/ (result_of run = Ok (Some (audio_name index))
       /\ exists data,
            state_of run !! audio_name index = Some data
            /\ 100 < String.length data))
  /\ Forall (synthesis_event text index) (events_of run)
  /\ 1 <= length (engines_called (events_of run)) <= 3.
Proof.
  cbv zeta. rewrite generate_audio_with_fallback_attempts. cbv zeta.
  pose proof (attempt_sound env index EdgeTZ (clean text) (audio_name index)
                h fs) as S1.
  pose proof (attempt_events env text index EdgeTZ h fs) as E1.
  pose proof (engines_called_attempt env index EdgeTZ (clean text)
                (audio_name index) h fs) as C1.
  set (a1 := attempt env index EdgeTZ _ _ h fs) in *.
  pose proof (attempt_sound env index EdgeKE (clean text) (audio_name index)
                (h ++ a1.2) a1.1.2) as S2.
  pose proof (attempt_events env text index EdgeKE (h ++ a1.2) a1.1.2) as E2.
  pose proof (engines_called_attempt env index EdgeKE (clean text)
                (audio_name index) (h ++ a1.2) a1.1.2) as C2.
  set (a2 := attempt env index EdgeKE _ _ (h ++ a1.2) a1.1.2) in *.
  pose proof (attempt_sound env index GTTS (clean text) (audio_name index)
                (h ++ a1.2 ++ a2.2) a2.1.2) as S3.
  pose proof (attempt_events env text index GTTS (h ++ a1.2 ++ a2.2) a2.1.2)
    as E3.
  pose proof (engines_called_attempt env index GTTS (clean text)
                (audio_name index) (h ++ a1.2 ++ a2.2) a2.1.2) as C3.
  set (a3 := attempt env index GTTS _ _ (h ++ a1.2 ++ a2.2) a2.1.2) in *.
  assert (Hfile : forall fs' : fsys,
            exists_and_larger fs' (audio_name index) 100 = true ->
            exists data,
              fs' !! audio_name index = Some data /\ 100 < String.length data).
  { intros fs' H. unfold exists_and_larger in H.
    destruct (fs' !! audio_name index) as [data|]; [|discriminate].
    exists data. split; [done|]. by apply Nat.ltb_lt. }
  unfold result_of, state_of, events_of.
  destruct (a1.1.1); [|destruct (a2.1.1); [|destruct (a3.1.1)]];
    cbn [fst snd]; rewrite ?engines_called_app, ?C1, ?C2, ?C3; cbn [length app].
  - split; [right; split; [done | by apply Hfile, S1]|]. split; [done | lia].
  - split; [right; split; [done | by apply Hfile, S2]|].
    split; [by apply Forall_app | lia].
  - split; [right; split; [done | by apply Hfile, S3]|].
    split; [by rewrite !Forall_app | lia].
  - split; [by left|]. split; [by rewrite !Forall_app | lia].
Qed.

(** X8: the size test cannot tell which engine wrote the file: when the first
    engine raises after leaving more than 100 bytes in the audio file and the
    second returns without writing, the file of the first is returned as the
    result of the second, and the third engine is not called. *)
Theorem X8_stale_audio (env : Env) (text : string) (index : nat)
    (h : list event) (fs fs1 : fsys) (e : exn) :
  let out := audio_name index in
  let first :=
    [ ETts EdgeTZ (clean text) out (Raise e);
      EPrint ("Microsoft TTS (TZ) failed: " +:+ e) ] in
  tts_save env h EdgeTZ (clean text) out fs = (Raise e, fs1) ->
  exists_and_larger fs1 out 100 = true ->
  tts_save env (h ++ first) EdgeKE (clean text) out fs1 = (Ok tt, fs1) ->
  generate_audio_with_fallback env text index h fs
  = (Ok (Some out), fs1, first ++ [ETts EdgeKE (clean text) out (Ok tt)]).
Proof.
  cbv zeta. intros H1 Hbig H2.
  assert (A1 : attempt env index EdgeTZ (clean text) (audio_name index) h fs
               = (false, fs1,
                  [ ETts EdgeTZ (clean text) (audio_name index) (Raise e);
                    EPrint ("Microsoft TTS (TZ) failed: " +:+ e) ])).
  { unfold attempt. cbn [app]. rewrite app_nil_r, H1. reflexivity. }
  rewrite generate_audio_with_fallback_attempts. cbv zeta.
  rewrite A1. cbn [fst snd].
  assert (A2 : attempt env index EdgeKE (clean text) (audio_name index)
                 (h ++ [ ETts EdgeTZ (clean text) (audio_name index) (Raise e);
                         EPrint ("Microsoft TTS (TZ) failed: " +:+ e) ]) fs1
               = (true, fs1,
                  [ETts EdgeKE (clean text) (audio_name index) (Ok tt)])).
  { unfold attempt. cbn [app]. rewrite app_nil_r, H2, Hbig. reflexivity. }
  rewrite A2. reflexivity.
Qed.

Lemma X8_stale_audio_witness :
  result_of (generate_audio_with_fallback StaleScenario.env "Habari" 0 [] ∅)
  = Ok (Some "audio_0.mp3")
  /\ engines_called
       (events_of (generate_audio_with_fallback StaleScenario.env "Habari" 0 [] ∅))
     = [EdgeTZ; EdgeKE].
Proof.
  rewrite (X8_stale_audio StaleScenario.env "Habari" 0 [] ∅
             (<["audio_0.mp3" := Demo.blob 200]> ∅) "connection reset").
  - split; reflexivity.
  - reflexivity.
  - vm_compute. reflexivity.
  - reflexivity.
Defined.

(** ** The processing of one item, continued *)

Lemma wp_conseq {S A} (m : M S A) h s (Q1 Q2 : res A -> S -> list event -> Prop) :
  wp m h s Q1 -> (forall r s' d, Q1 r s' d -> Q2 r s' d) -> wp m h s Q2.
Proof. intros H HQ. by apply HQ. Qed.

(** What the synthesizer hands back to the processing of an item. *)
Lemma generate_audio_with_fallback_outcome env text index h fs :
  wp (generate_audio_with_fallback env text index) h fs
    (fun r _ d =>
       Forall audio_event d
       /\ (r = Ok None \/ r = Ok (Some (audio_name index)))).
Proof.
  unfold wp. split; [apply generate_audio_with_fallback_emits|].
  rewrite generate_audio_with_fallback_attempts. cbv zeta.
  unfold result_of.
  repeat match goal with
         | |- context [if ?b then _ else _] => destruct b
         end; cbn; auto.
Qed.

Ltac in_cases H :=
  rewrite ?in_app_iff in H; cbn [In] in H;
  repeat match type of H with
         | _ \/ _ => destruct H as [H|H]
         end.

Ltac no_child Hda :=
  let argv := fresh "argv" in
  let r := fresh "r" in
  let Hin := fresh "Hin" in
  intros argv r Hin; in_cases Hin;
  try discriminate; try contradiction;
  try (rewrite Forall_forall in Hda;
       apply list_elem_of_In, Hda in Hin; contradiction).

(** X9: every child process started while an item is processed is the probe
    of the item's audio file or the encode of the item's segment; the encode
    is started only after the image was downloaded and written and the probe
    exited with code 0, and it is given the files of the item's index and,
    as duration, the stripped output of the probe. *)
Theorem X9_children_of_item (env : Env) (item : news_item) (index : nat)
    (h : list event) (fs : fsys) :
  let d := events_of (generate_assets env item index h fs) in
  forall argv r, In (ESubprocess argv r) d -> child_of_item item index d argv.
Proof.
  cbv zeta.
  change (wp (generate_assets env item index) h fs
            (fun _ _ d =>
               forall argv r,
                 In (ESubprocess argv r) d -> child_of_item item index d argv)).
  unfold generate_assets.
  fold (segment_name index) (image_name index).
  apply wp_try. unfold print.
  apply wp_bind, wp_emit.
  apply wp_bind, wp_translate_call. intros [tr|e].
  2: { apply wp_bind, wp_emit, wp_ret. no_child I. }
  apply wp_bind, wp_emit.
  apply wp_bind.
  eapply wp_conseq; [apply generate_audio_with_fallback_outcome|].
  intros ra fs1 da [Hda Hra].
  destruct Hra as [->| ->].
  { cbn [PyStr.truthy_opt negb].
    apply wp_raise, wp_bind, wp_emit, wp_ret. no_child Hda. }
  change (negb (PyStr.truthy_opt (Some (audio_name index)))) with false.
  change (default "" (Some (audio_name index))) with (audio_name index).
  cbv iota.
  apply wp_bind, wp_requests_call. intros [img|e].
  2: { apply wp_bind, wp_emit, wp_ret. no_child Hda. }
  apply wp_bind, wp_write_file.
  { intros e. apply wp_bind, wp_emit, wp_ret. no_child Hda. }
  apply wp_bind, wp_emit.
  apply wp_bind. unfold check_output.
  apply wp_bind, wp_subprocess_call. intros [[[prc pso] pse]|e] fs2.
  2: { apply wp_bind, wp_emit, wp_ret. no_child Hda.
       injection Hin as <- _. by left. }
  cbn [fst snd]. destruct (prc =? 0)%Z eqn:Hprc.
  2: { apply wp_raise, wp_bind, wp_emit, wp_ret. no_child Hda.
       injection Hin as <- _. by left. }
  apply Z.eqb_eq in Hprc. subst prc.
  apply wp_ret.
  apply wp_bind, wp_subprocess_call. intros result fs3.
  assert (Hdone : forall tail,
            (forall argv r, In (ESubprocess argv r) tail -> False) ->
            forall argv r,
              let d :=
                [EPrint ("Segment " +:+ pretty index +:+ ": Translating...")]
                ++ [ETranslate (summary item) (Ok tr)]
                ++ [EPrint ("Segment " +:+ pretty index
                            +:+ ": Generating Audio...")]
                ++ da
                ++ [EHttpGet (image item) (Ok img)]
                ++ [EWrite (image_name index) img (Ok tt)]
                ++ [EPrint ("Segment " +:+ pretty index
                            +:+ ": Rendering Video...")]
                ++ ([ESubprocess (duration_cmd (audio_name index))
                       (Ok (0%Z, pso, pse))] ++ [])
                ++ [ESubprocess
                      (ffmpeg_cmd (image_name index) (audio_name index)
                         (PyStr.strip pso) (segment_name index)) result]
                ++ tail in
              In (ESubprocess argv r) d -> child_of_item item index d argv).
  { intros tail Htail argv r d Hin. subst d. in_cases Hin;
      try discriminate; try contradiction.
    - rewrite Forall_forall in Hda.
      apply list_elem_of_In, Hda in Hin. contradiction.
    - injection Hin as <- _. by left.
    - injection Hin as <- _. right. exists img, pso, pse.
      rewrite !in_app_iff. cbn [In]. tauto.
    - by apply Htail in Hin. }
  destruct result as [[[rc so] se]|e].
  2: { apply wp_bind, wp_emit, wp_ret. rewrite <- !app_assoc.
       apply Hdone. intros argv r Hin. in_cases Hin; by try discriminate. }
  cbn [fst snd]. destruct (rc =? 0)%Z; cbn [negb].
  2: { apply wp_bind, wp_emit, wp_ret. rewrite <- !app_assoc.
       apply Hdone. intros argv r Hin. in_cases Hin; by try discriminate. }
  apply wp_bind, wp_get.
  destruct (exists_and_larger fs3 (segment_name index) 1000); apply wp_ret;
    rewrite <- !app_assoc; apply Hdone; intros argv r Hin;
    in_cases Hin; by try discriminate.
Qed.

Lemma X9_children_of_item_witness :
  child_of_item (Demo.item "T" "good") 0
    (events_of (generate_assets Scenario.all_bad (Demo.item "T" "good") 0 [] ∅))
    (ffmpeg_cmd "image_0.jpg" "audio_0.mp3" "3.5" "segment_0.mp4").
Proof.
  refine (X9_children_of_item Scenario.all_bad (Demo.item "T" "good") 0 [] ∅
            (ffmpeg_cmd "image_0.jpg" "audio_0.mp3" "3.5" "segment_0.mp4")
            (Ok (0%Z, "", "")) _).
  vm_compute. repeat (first [left; reflexivity | right]).
Defined.

(** ** The main loop, continued *)

Lemma while_true_raise {S} (body : M S unit) fuel h s e :
  result_of (body h s) = Raise e ->
  while_true (S:=S) (Datatypes.S fuel) body h s
  = (Raise e, state_of (body h s), events_of (body h s)).
Proof.
  intros H. cbn [while_true]. rewrite run_bind.
  unfold result_of, state_of, events_of in *.
  destruct (body h s) as [[r s1] d1]. cbn [fst snd] in *. by subst r.
Qed.

Lemma while_true_running {S} (body : M S unit) fuel : forall h s,
  result_of (while_true (S:=S) fuel body h s) <> Ok Returned.
Proof.
  induction fuel as [|fuel IH]; intros h s; cbn [while_true].
  - discriminate.
  - rewrite run_bind. destruct (body h s) as [[[u|e] s1] d1]; [|discriminate].
    specialize (IH (h ++ d1) s1). unfold result_of in *.
    destruct (while_true fuel body (h ++ d1) s1) as [[r2 s2] d2].
    exact IH.
Qed.

(** X10: an exception of the manifest write or of the start of the publisher
    is not caught: the round ends with it, the cleanup is not run, and the
    loop ends with the same exception without another round. *)
Theorem X10_publish_failure (env : Env) (key : string) (h : list event)
    (fs : fsys) (e : exn) :
  let segs := segments_of env h fs in
  let pre := events_of (get_news env h fs) ++ events_of (rendering env h fs) in
  let dir := state_of (rendering env h fs) in
  let wrote :=
    [ EWrite "playlist.txt" (playlist_text segs) (Ok tt);
      EPrint "--- [STREAMING] Pushing to YouTube ---" ] in
  segs <> [] ->
  (write_error env (h ++ pre) "playlist.txt" = Some e ->
   forall fuel,
     cycle env key h fs
     = (Raise e, dir,
        pre ++ [EWrite "playlist.txt" (playlist_text segs) (Raise e)])
     /\ while_true (S fuel) (cycle env key) h fs
        = (Raise e, state_of (cycle env key h fs),
           events_of (cycle env key h fs)))
  /\ (write_error env (h ++ pre) "playlist.txt" = None ->
      forall dir',
        subprocess_run env (h ++ pre ++ wrote) (stream_cmd key)
          (<["playlist.txt" := playlist_text segs]> dir) = (Raise e, dir') ->
        forall fuel,
          cycle env key h fs
          = (Raise e, dir',
             pre ++ wrote ++ [ESubprocess (stream_cmd key) (Raise e)])
          /\ while_true (S fuel) (cycle env key) h fs
             = (Raise e, state_of (cycle env key h fs),
                events_of (cycle env key h fs))).
Proof.
  cbv zeta. intros Hne.
  pose proof (cycle_run env key h fs) as Hc. cbv zeta in Hc.
  destruct (segments_of env h fs) as [|v vs] eqn:Hsegs; [done|].
  split.
  - intros Hw fuel.
    assert (Hcy : cycle env key h fs
                  = (Raise e, state_of (rendering env h fs),
                     (events_of (get_news env h fs)
                      ++ events_of (rendering env h fs))
                     ++ [EWrite "playlist.txt" (playlist_text (v :: vs))
                           (Raise e)])).
    { rewrite Hc.
      match goal with
      | |- (result_of ?t, _, _) = _ =>
          assert (T : t = (Raise e, state_of (rendering env h fs),
                           [EWrite "playlist.txt" (playlist_text (v :: vs))
                              (Raise e)]))
      end.
      { rewrite run_bind. unfold write_file. by rewrite Hw. }
      rewrite T. unfold result_of, state_of, events_of. cbn [fst snd].
      by rewrite <- app_assoc. }
    split; [exact Hcy|].
    apply while_true_raise. by rewrite Hcy.
  - intros Hw dir' Hrun fuel.
    assert (Hcy : cycle env key h fs
                  = (Raise e, dir',
                     (events_of (get_news env h fs)
                      ++ events_of (rendering env h fs))
                     ++ [EWrite "playlist.txt" (playlist_text (v :: vs)) (Ok tt);
                         EPrint "--- [STREAMING] Pushing to YouTube ---"]
                     ++ [ESubprocess (stream_cmd key) (Raise e)])).
    { rewrite Hc.
      match goal with
      | |- (result_of ?t, _, _) = _ =>
          assert (T : t = (Raise e, dir',
                           [EWrite "playlist.txt" (playlist_text (v :: vs))
                              (Ok tt);
                            EPrint "--- [STREAMING] Pushing to YouTube ---";
                            ESubprocess (stream_cmd key) (Raise e)]))
      end.
      { rewrite !run_bind. unfold write_file at 1. rewrite Hw. cbn [fst snd].
        rewrite !run_bind. unfold print, emit. cbn [fst snd].
        rewrite !run_bind. unfold subprocess_call at 1.
        rewrite <- app_assoc in Hrun. rewrite <- ?app_assoc. cbn [app] in *.
        by rewrite Hrun. }
      rewrite T. unfold result_of, state_of, events_of. cbn [fst snd].
      by rewrite <- app_assoc. }
    split; [exact Hcy|].
    apply while_true_raise. by rewrite Hcy.
Qed.

Lemma X10_publish_failure_witness :
  result_of (broadcast_loop KeyScenario.no_publisher 5 [] ∅)
  = Raise "FileNotFoundError: ffmpeg"
  /\ while_true 5 (cycle KeyScenario.no_publisher "k") [] ∅
     = (Raise "FileNotFoundError: ffmpeg",
        state_of (cycle KeyScenario.no_publisher "k" [] ∅),
        events_of (cycle KeyScenario.no_publisher "k" [] ∅)).
Proof.
  split; [vm_compute; reflexivity|].
  refine (proj2 (proj2 (X10_publish_failure KeyScenario.no_publisher "k" [] ∅
                          "FileNotFoundError: ffmpeg" _) _ _ _ 4)).
  - vm_compute. discriminate.
  - reflexivity.
  - vm_compute. reflexivity.
Defined.

(** X11: with a credential, the program first removes a manifest left by an
    earlier run; when there is none nothing is removed, and when the removal
    fails the program ends with that exception before any feed is
    requested; in no case does it return normally. *)
Theorem X11_startup (env : Env) (fuel : nat) (h : list event) (fs : fsys) :
  PyStr.truthy_opt (STREAM_KEY env) = true ->
  let key := default "" (STREAM_KEY env) in
  let run := broadcast_loop env fuel h fs in
  (fs !! "playlist.txt" = None ->
   run = while_true fuel (cycle env key) h fs)
  /\ (forall old e,
        fs !! "playlist.txt" = Some old ->
        remove_error env h "playlist.txt" = Some e ->
        run = (Raise e, fs, [ERemove "playlist.txt" (Raise e)]))
  /\ (forall old,
        fs !! "playlist.txt" = Some old ->
        remove_error env h "playlist.txt" = None ->
        let rounds :=
          while_true fuel (cycle env key)
            (h ++ [ERemove "playlist.txt" (Ok tt)])
            (delete "playlist.txt" fs) in
        run = (result_of rounds, state_of rounds,
               ERemove "playlist.txt" (Ok tt) :: events_of rounds))
  /\ result_of run <> Ok Returned.
Proof.
  intros Hkey. cbv zeta. unfold broadcast_loop. rewrite Hkey. cbn [negb].
  rewrite !run_bind. unfold get. cbn [fst snd]. rewrite !app_nil_r.
  cbn [app].
  pose proof (fun h' s' =>
                while_true_running (cycle env (default "" (STREAM_KEY env)))
                  fuel h' s') as Hrun.
  unfold result_of in Hrun.
  split; [|split; [|split]].
  - intros Hnone. rewrite Hnone.
    rewrite bool_decide_eq_false_2 by (by intros [? ?]).
    rewrite run_bind. cbn [fst snd mret M_ret ret]. rewrite ?app_nil_r.
    by destruct (while_true fuel _ h fs) as [[r s] d].
  - intros old e Hold Herr. rewrite Hold.
    rewrite bool_decide_eq_true_2 by eauto.
    rewrite run_bind. unfold os_remove. by rewrite Herr.
  - intros old Hold Herr. rewrite Hold.
    rewrite bool_decide_eq_true_2 by eauto.
    rewrite run_bind. unfold os_remove. rewrite Herr, Hold.
    cbn [fst snd]. unfold result_of, state_of, events_of.
    by destruct (while_true fuel _ _ (delete "playlist.txt" fs))
      as [[r s] d].
  - destruct (bool_decide (is_Some (fs !! "playlist.txt"))); rewrite run_bind.
    + destruct (os_remove env "playlist.txt" h fs) as [[[u|e] s1] d1];
        [|discriminate].
      specialize (Hrun (h ++ d1) s1). unfold result_of.
      by destruct (while_true fuel _ (h ++ d1) s1) as [[r s] d].
    + cbn [fst snd mret M_ret ret]. rewrite ?app_nil_r.
      specialize (Hrun h fs). unfold result_of.
      by destruct (while_true fuel _ h fs) as [[r s] d].
Qed.

Lemma X11_startup_witness :
  broadcast_loop KeyScenario.stuck_manifest 3 []
    (<["playlist.txt" := "file 'segment_0.mp4'"]> ∅)
  = (Raise "PermissionError", <["playlist.txt" := "file 'segment_0.mp4'"]> ∅,
     [ERemove "playlist.txt" (Raise "PermissionError")]).
Proof.
  refine (proj1 (proj2 (X11_startup KeyScenario.stuck_manifest 3 []
                          (<["playlist.txt" := "file 'segment_0.mp4'"]> ∅) _))
            "file 'segment_0.mp4'" "PermissionError" _ _).
  - reflexivity.
  - vm_compute. reflexivity.
  - reflexivity.
Defined.

(** X12: a credential that is set to the empty string counts as missing: the
    program logs the same line and returns without any other effect. *)
Theorem X12_empty_credential (env : Env) (fuel : nat) (h : list event)
    (fs : fsys) :
  STREAM_KEY env = Some "" ->
  broadcast_loop env fuel h fs
  = (Ok Returned, fs,
     [EPrint "CRITICAL: YOUTUBE_STREAM_KEY secret is missing!"]).
Proof. intros Hkey. unfold broadcast_loop. rewrite Hkey. reflexivity. Qed.

Lemma X12_empty_credential_witness :
  events_of (broadcast_loop KeyScenario.empty_key 3 [] ∅)
  = [EPrint "CRITICAL: YOUTUBE_STREAM_KEY secret is missing!"].
Proof.
  rewrite (X12_empty_credential KeyScenario.empty_key 3 [] ∅ eq_refl).
  reflexivity.
Defined.

(** ** The transient files *)

Lemma str_app_cancel_r (a b s : string) : a +:+ s = b +:+ s -> a = b.
Proof.
  revert b. induction a as [|x a IH]; intros b H.
  - destruct b as [|y b]; [done|]. apply (f_equal String.length) in H.
    rewrite !str_length_app in H. cbn in H. lia.
  - destruct b as [|y b].
    + apply (f_equal String.length) in H.
      rewrite !str_length_app in H. cbn in H. lia.
    + change (String x (a +:+ s) = String y (b +:+ s)) in H.
      injection H as -> H. f_equal. by apply IH.
Qed.

Lemma indexed_name_inj (prefix suffix : string) (i j : nat) :
  prefix +:+ pretty i +:+ suffix = prefix +:+ pretty j +:+ suffix -> i = j.
Proof.
  intros H. apply (inj (String.app prefix)) in H.
  apply str_app_cancel_r in H. by apply (inj pretty) in H.
Qed.

Lemma is_media_suffix (a suf : string) :
  In suf [".mp4"; ".mp3"; ".jpg"] -> is_media (a +:+ suf) = true.
Proof.
  intros Hin. unfold is_media, PyStr.endswith_any.
  apply existsb_exists. exists suf. split; [exact Hin | apply endswith_app].
Qed.

Lemma is_media_indexed (prefix suf : string) (i : nat) :
  In suf [".mp4"; ".mp3"; ".jpg"] ->
  is_media (prefix +:+ pretty i +:+ suf) = true.
Proof. intros H. rewrite <- str_app_assoc. by apply is_media_suffix. Qed.

(** X13: the audio, image and segment files of two different indices have
    different names, the three files of an index differ from one another,
    every one of them has an ending that the cleanup looks for, and the
    manifest has none. *)
Theorem X13_transient_names (i j : nat) :
  (audio_name i = audio_name j -> i = j)
  /\ (image_name i = image_name j -> i = j)
  /\ (segment_name i = segment_name j -> i = j)
  /\ audio_name i <> image_name j
  /\ audio_name i <> segment_name j
  /\ image_name i <> segment_name j
  /\ is_media (audio_name i) = true
  /\ is_media (image_name i) = true
  /\ is_media (segment_name i) = true
  /\ is_media "playlist.txt" = false.
Proof.
  unfold audio_name, image_name, segment_name.
  repeat split; try apply indexed_name_inj; try discriminate;
    try reflexivity; apply is_media_indexed; cbn; tauto.
Qed.

Lemma X13_transient_names_witness : audio_name 3 <> audio_name 4.
Proof.
  intros H. apply (proj1 (X13_transient_names 3 4)) in H. discriminate.
Defined.

(** The cleanup, for any working directory. *)
Lemma cleanup_run env h (fs : fsys) :
  let run := cleanup env h fs in
  result_of run = Ok tt
  /\ (forall f, is_media f = false -> state_of run !! f = fs !! f)
  /\ ((forall h' f, remove_error env h' f = None) ->
      forall f, is_media f = true -> state_of run !! f = None)
  /\ Forall cleanup_event (events_of run).
Proof.
  cbv zeta. unfold cleanup. rewrite run_bind. unfold get. cbn [fst snd].
  assert (Hin : forall f, f ∈ listdir fs <-> is_Some (fs !! f)).
  { intros f. unfold listdir. rewrite list_elem_of_fmap. split.
    - intros ([k v] & -> & Hkv). apply elem_of_map_to_list in Hkv. eauto.
    - intros [v Hv]. exists (f, v). split; [done|].
      by apply elem_of_map_to_list. }
  pose proof (cleanup_loop env (listdir fs) (NoDup_fst_map_to_list fs)
                (h ++ []) fs (fun f Hf => proj1 (Hin f) Hf)) as H.
  cbv zeta in H. destruct H as (H1 & H2 & H3).
  assert (Hev : Forall cleanup_event
                  (events_of
                     (for_each (listdir fs)
                        (fun f =>
                           if PyStr.endswith_any f [".mp4"; ".mp3"; ".jpg"]
                           then try_except (os_remove env f) (fun _ => mret tt)
                           else mret tt) (h ++ []) fs))).
  { apply emits_for_each. intros f.
    destruct (PyStr.endswith_any f [".mp4"; ".mp3"; ".jpg"]) eqn:E.
    - apply emits_try; [|intros; apply emits_ret].
      apply emits_os_remove. intros r. exact E.
    - apply emits_ret. }
  unfold result_of, state_of, events_of in *.
  destruct (for_each (listdir fs) _ (h ++ []) fs) as [[r2 fs2] d2].
  cbn [fst snd app] in *.
  split; [exact H1|]. split; [intros f Hf; apply H2; by right|].
  split; [|exact Hev].
  intros Hnone f Hm.
  destruct (fs !! f) as [data|] eqn:Hdata.
  - destruct (H3 f) as [[_ H]|(e & h' & Ha & _)];
      [apply Hin; eauto|done|done|].
    rewrite Hnone in Ha. discriminate.
  - rewrite H2; [done|]. left. intros Hf. apply Hin in Hf.
    rewrite Hdata in Hf. by destruct Hf.
Qed.

(** X14: when no removal fails, the working directory after the cleanup
    holds no audio, image or segment file of any index, and the manifest is
    as it was. *)
Theorem X14_cleanup_transients (env : Env) (h : list event) (fs : fsys) :
  (forall h' f, remove_error env h' f = None) ->
  let after := state_of (cleanup env h fs) in
  (forall i,
     after !! audio_name i = None
     /\ after !! image_name i = None
     /\ after !! segment_name i = None)
  /\ manifest after = manifest fs.
Proof.
  intros Hnone. cbv zeta.
  destruct (cleanup_run env h fs) as (_ & Hkeep & Hgone & _).
  specialize (Hgone Hnone).
  split; [|by apply Hkeep].
  intros i. unfold audio_name, image_name, segment_name.
  repeat split; apply Hgone, is_media_indexed; cbn; tauto.
Qed.

Lemma X14_cleanup_transients_witness :
  state_of (cleanup Scenario.all_bad [] CleanupScenario.dir)
    !! segment_name 0 = None.
Proof.
  refine (proj2 (proj2 (proj1
    (X14_cleanup_transients Scenario.all_bad [] CleanupScenario.dir _) 0))).
  intros h' f. reflexivity.
Defined.

(** ** A round that publishes *)

(** What follows the rendering loop in a round with segments. *)
Lemma publish_tail env key text h (s : fsys) :
  let t :=
    (write_file env "playlist.txt" text;;
     print "--- [STREAMING] Pushing to YouTube ---";;
     subprocess_call env (stream_cmd key);;
     cleanup env) h s in
  (exists e, events_of t = [EWrite "playlist.txt" text (Raise e)])
  \/ (exists e,
        events_of t
        = [ EWrite "playlist.txt" text (Ok tt);
            EPrint "--- [STREAMING] Pushing to YouTube ---";
            ESubprocess (stream_cmd key) (Raise e) ])
  \/ (exists u removals,
        events_of t
        = [ EWrite "playlist.txt" text (Ok tt);
            EPrint "--- [STREAMING] Pushing to YouTube ---";
            ESubprocess (stream_cmd key) (Ok u) ] ++ removals
        /\ Forall cleanup_event removals).
Proof.
  cbv zeta.
  match goal with
  | |- (exists e, events_of ?t = _) \/ _ =>
      change (wp (write_file env "playlist.txt" text;;
                  print "--- [STREAMING] Pushing to YouTube ---";;
                  subprocess_call env (stream_cmd key);;
                  cleanup env) h s
                (fun _ _ d =>
                   (exists e, d = [EWrite "playlist.txt" text (Raise e)])
                   \/ (exists e,
                         d = [ EWrite "playlist.txt" text (Ok tt);
                               EPrint "--- [STREAMING] Pushing to YouTube ---";
                               ESubprocess (stream_cmd key) (Raise e) ])
                   \/ (exists u removals,
                         d = [ EWrite "playlist.txt" text (Ok tt);
                               EPrint "--- [STREAMING] Pushing to YouTube ---";
                               ESubprocess (stream_cmd key) (Ok u) ]
                             ++ removals
                         /\ Forall cleanup_event removals)))
  end.
  apply wp_bind, wp_write_file; [intros e; left; eauto|].
  unfold print. apply wp_bind, wp_emit.
  apply wp_bind, wp_subprocess_call. intros [u|e] s2; [|right; left; eauto].
  eapply wp_emits; [intros h' s'; apply cleanup_run|].
  intros r s' d Hd. right; right. exists u, d. split; [reflexivity | exact Hd].
Qed.

Lemma split_after_prefix {A} (P R before after : list A) (x : A) :
  P ++ R = before ++ x :: after ->
  ~ In x P ->
  exists mid, before = P ++ mid /\ R = mid ++ x :: after.
Proof.
  revert before. induction P as [|p P IH]; intros before Heq Hx.
  - exists before. by split.
  - destruct before as [|b before]; cbn in Heq.
    + injection Heq as -> _. exfalso. apply Hx. by left.
    + injection Heq as -> Heq.
      destruct (IH before Heq) as (mid & -> & ->).
      { intros Hin. apply Hx. by right. }
      by exists mid.
Qed.

Lemma sleeps_cleanup d : Forall cleanup_event d -> sleeps d = [].
Proof.
  induction 1 as [|e d He _ IH]; [done|].
  destruct e; cbn in *; try done; exact IH.
Qed.

(** X15: in a round with segments nothing is removed before the publisher
    has come back: every removal of the round follows the return of the
    publisher and is the removal of a media file; and the round has the
    pauses of two seconds of its segments and no back-off. *)
Theorem X15_publishing_round (env : Env) (key : string) (h : list event)
    (fs : fsys) :
  segments_of env h fs <> [] ->
  let events := events_of (cycle env key h fs) in
  (forall before f r after,
     events = before ++ ERemove f r :: after ->
     is_media f = true
     /\ exists u, In (ESubprocess (stream_cmd key) (Ok u)) before)
  /\ sleeps events = repeat 2 (length (segments_of env h fs)).
Proof.
  intros Hne. cbv zeta.
  pose proof (cycle_run env key h fs) as Hc. cbv zeta in Hc.
  pose proof (get_news_emits env h fs) as Hn.
  pose proof (render_items_emits env (fetched env h fs) 0 []
                (h ++ events_of (get_news env h fs))
                (state_of (get_news env h fs))) as Hr.
  pose proof (sleeps_render_items env (fetched env h fs) 0
                (h ++ events_of (get_news env h fs))
                (state_of (get_news env h fs)) _ (rendering_ok env h fs)) as Hs.
  fold (rendering env h fs) in Hr, Hs.
  destruct (segments_of env h fs) as [|v vs] eqn:Hsegs; [done|].
  set (dn := events_of (get_news env h fs)) in *.
  set (dr := events_of (rendering env h fs)) in *.
  assert (Hpre : forall f r, ~ In (ERemove f r) (dn ++ dr)).
  { intros f r Hin. apply list_elem_of_In in Hin.
    rewrite Forall_forall in Hn, Hr.
    apply elem_of_app in Hin as [Hin|Hin].
    - by apply Hn in Hin.
    - apply Hr in Hin as [Hin|Hin]; [exact Hin | discriminate]. }
  pose proof (publish_tail env key (playlist_text (v :: vs)) (h ++ dn ++ dr)
                (state_of (rendering env h fs))) as Ht.
  cbv zeta in Ht. rewrite Hc.
  match goal with
  | |- context [events_of (result_of ?t, state_of ?t, ?d)] =>
      change (events_of (result_of t, state_of t, d)) with d
  end.
  destruct Ht as [[e Ht]|[[e Ht]|(u & removals & Ht & Hrem)]]; rewrite Ht;
    clear Ht.
  - split.
    + intros before f r after Heq.
      assert (Hin : In (ERemove f r)
                      (dn ++ dr ++ [EWrite "playlist.txt"
                                      (playlist_text (v :: vs)) (Raise e)])).
      { rewrite Heq. apply in_or_app. right. by left. }
      rewrite app_assoc in Hin. apply in_app_or in Hin as [Hin|Hin].
      * by apply Hpre in Hin.
      * cbn in Hin. destruct Hin as [Hin|[]]. discriminate.
    + rewrite !sleeps_app, (sleeps_news _ Hn), Hs. cbn. by rewrite app_nil_r.
  - split.
    + intros before f r after Heq.
      match type of Heq with
      | ?l = _ => assert (Hin : In (ERemove f r) l)
      end.
      { rewrite Heq. apply in_or_app. right. by left. }
      rewrite app_assoc in Hin. apply in_app_or in Hin as [Hin|Hin].
      * by apply Hpre in Hin.
      * cbn in Hin. destruct Hin as [Hin|[Hin|[Hin|[]]]]; discriminate.
    + rewrite !sleeps_app, (sleeps_news _ Hn), Hs. cbn. by rewrite app_nil_r.
  - split.
    + intros before f r after Heq.
      rewrite app_assoc in Heq. rewrite app_assoc in Heq.
      apply split_after_prefix in Heq as (mid & -> & ->).
      * split.
        -- rewrite Forall_forall in Hrem.
           apply (Hrem (ERemove f r)). apply elem_of_app. right. by left.
        -- exists u. rewrite !in_app_iff. cbn [In]. tauto.
      * intros Hin. apply in_app_or in Hin as [Hin|Hin].
        -- by apply Hpre in Hin.
        -- cbn in Hin. destruct Hin as [Hin|[Hin|[Hin|[]]]]; discriminate.
    + rewrite !sleeps_app, (sleeps_news _ Hn), Hs, (sleeps_cleanup _ Hrem).
      cbn. by rewrite app_nil_r.
Qed.

Lemma X15_publishing_round_witness :
  sleeps (events_of (cycle Scenario.one_then_none "k" [] ∅)) = [2].
Proof.
  refine (proj2 (X15_publishing_round Scenario.one_then_none "k" [] ∅ _)).
  vm_compute. discriminate.
Defined.

(** The segments of the rendering loop come from increasing indices. *)
Lemma item_runs_indices env items : forall i h fs,
  exists idxs,
    omap (kept ∘ fst) (item_runs env items i h fs) = map segment_name idxs
    /\ StronglySorted lt idxs
    /\ Forall (fun k => i <= k < i + length items) idxs.
Proof.
  induction items as [|item rest IH]; intros i h fs; cbn [item_runs].
  - exists []. repeat split; constructor.
  - set (run := generate_assets env item i h fs).
    set (video := match result_of run with Ok v => v | Raise _ => None end).
    destruct (IH (S i) (h ++ events_of run ++ pause_after video)
                (state_of run)) as (idxs & Hseg & Hsort & Hbound).
    change (omap (kept ∘ fst) ((video, events_of run) :: ?l))
      with (match kept video with
            | Some y => y :: omap (kept ∘ fst) l
            | None => omap (kept ∘ fst) l
            end).
    rewrite Hseg.
    assert (Hlater : Forall (fun k => i <= k < i + length (item :: rest)) idxs).
    { eapply Forall_impl; [exact Hbound|]. cbn. intros k Hk. lia. }
    assert (Hv : video = None \/ video = Some (segment_name i)).
    { subst video.
      destruct (generate_assets_cases env item i h fs) as [H|[H _]];
        fold run in H; rewrite H; auto. }
    destruct Hv as [-> | ->].
    + exists idxs. cbn. by repeat split.
    + exists (i :: idxs). split; [reflexivity|]. split.
      * constructor; [exact Hsort|].
        eapply Forall_impl; [exact Hbound|]. cbn. intros k Hk. lia.
      * constructor; [cbn; lia | exact Hlater].
Qed.

Lemma sorted_names_nodup idxs :
  StronglySorted lt idxs -> NoDup (map segment_name idxs).
Proof.
  induction 1 as [|k idxs Hs IH Hk]; cbn; constructor; [|exact IH].
  intros Hin. apply list_elem_of_In, in_map_iff in Hin as (j & Hj & Hin).
  unfold segment_name in Hj. apply indexed_name_inj in Hj. subst j.
  rewrite Forall_forall in Hk. apply list_elem_of_In, Hk in Hin. lia.
Qed.

(** X16: the segments of a round are the segment files of increasing item
    indices of that round: the manifest never names a file twice, never
    names a file of an item that was not fetched in the round, and has at
    most twelve entries. *)
Theorem X16_playlist_indices (env : Env) (h : list event) (fs : fsys) :
  let segs := segments_of env h fs in
  (exists idxs,
     segs = map segment_name idxs
     /\ StronglySorted lt idxs
     /\ Forall (fun k => k < length (fetched env h fs)) idxs)
  /\ NoDup segs
  /\ length segs <= 12.
Proof.
  cbv zeta.
  pose proof (render_items_runs env (fetched env h fs) 0 []
                (h ++ events_of (get_news env h fs))
                (state_of (get_news env h fs))) as [Hres _].
  fold (rendering env h fs) in Hres.
  rewrite rendering_ok in Hres. injection Hres as Hsegs. cbn [app] in Hsegs.
  destruct (item_runs_indices env (fetched env h fs) 0
              (h ++ events_of (get_news env h fs))
              (state_of (get_news env h fs))) as (idxs & Hmap & Hsort & Hb).
  rewrite Hsegs, Hmap.
  assert (Hlen : length (fetched env h fs) <= 12).
  { pose proof (get_news_run env h fs) as Hg. cbv zeta in Hg.
    unfold fetched. rewrite Hg. cbn [result_of fst].
    pose proof (fetch_feed_filled env "https://www.bbc.com/swahili/index.xml"
                  (h ++ [EPrint fetch_banner]) [] (Forall_nil_2 _))
      as [H1 L1].
    set (r1 := fetch_feed env "https://www.bbc.com/swahili/index.xml" _ _) in *.
    pose proof (fetch_feed_filled env
                  "https://www.dw.com/sw/habari/rss-30740-swahili"
                  ((h ++ [EPrint fetch_banner]) ++ events_of r1)
                  (state_of r1) H1) as [_ L2].
    cbn [length] in L1. lia. }
  split; [|split].
  - exists idxs. split; [reflexivity|]. split; [exact Hsort|].
    eapply Forall_impl; [exact Hb|]. cbn. intros k Hk. lia.
  - by apply sorted_names_nodup.
  - rewrite length_map.
    assert (Hn : NoDup idxs).
    { clear -Hsort. induction Hsort as [|k idxs Hs IH Hk]; constructor; [|done].
      intros Hin. rewrite Forall_forall in Hk. apply Hk in Hin. lia. }
    assert (Hsub : idxs ⊆ seq 0 (length (fetched env h fs))).
    { intros k Hk. rewrite Forall_forall in Hb. apply Hb in Hk.
      apply list_elem_of_In, in_seq. lia. }
    pose proof (submseteq_length _ _ (NoDup_submseteq _ _ Hn Hsub)) as Hle.
    rewrite length_seq in Hle. lia.
Qed.

Lemma feeds_requested_none (P : event -> Prop) d :
  (forall e, P e -> match e with EFeedParse _ _ => False | _ => True end) ->
  Forall P d -> feeds_requested d = [].
Proof.
  intros HP. induction 1 as [|e d He _ IH]; [done|].
  apply HP in He. destruct e; cbn in *; try done; exact IH.
Qed.

Lemma get_news_feeds env h (fs : fsys) :
  feeds_requested (events_of (get_news env h fs)) = RSS_FEEDS.
Proof.
  pose proof (get_news_run env h fs) as Hg. cbv zeta in Hg. rewrite Hg.
  unfold events_of at 1. cbn [snd].
  change (EPrint fetch_banner :: ?d) with ([EPrint fetch_banner] ++ d).
  rewrite !feeds_requested_app.
  destruct (fetch_feed_run env "https://www.bbc.com/swahili/index.xml"
              (h ++ [EPrint fetch_banner]) []) as (_ & -> & _).
  destruct (fetch_feed_run env "https://www.dw.com/sw/habari/rss-30740-swahili"
              ((h ++ [EPrint fetch_banner])
               ++ events_of (fetch_feed env "https://www.bbc.com/swahili/index.xml"
                               (h ++ [EPrint fetch_banner]) []))
              (state_of (fetch_feed env "https://www.bbc.com/swahili/index.xml"
                           (h ++ [EPrint fetch_banner]) [])))
    as (_ & -> & _).
  reflexivity.
Qed.

(** X17: every round, whether it publishes or backs off, requests each feed
    of the list exactly once, in the order of the list, and all its feed
    requests come before the first item is processed. *)
Theorem X17_feeds_per_round (env : Env) (key : string) (h : list event)
    (fs : fsys) :
  feeds_requested (events_of (cycle env key h fs)) = RSS_FEEDS
  /\ exists rest,
       events_of (cycle env key h fs)
       = events_of (get_news env h fs) ++ rest
       /\ feeds_requested rest = [].
Proof.
  pose proof (cycle_run env key h fs) as Hc. cbv zeta in Hc.
  pose proof (render_items_emits env (fetched env h fs) 0 []
                (h ++ events_of (get_news env h fs))
                (state_of (get_news env h fs))) as Hr.
  fold (rendering env h fs) in Hr.
  assert (Hrend : feeds_requested (events_of (rendering env h fs)) = []).
  { eapply feeds_requested_none; [|exact Hr].
    intros [] [H|H]; try exact I; try discriminate; exact H. }
  assert (Hrest : exists rest,
            events_of (cycle env key h fs)
            = events_of (get_news env h fs) ++ rest
            /\ feeds_requested rest = []).
  { rewrite Hc. destruct (segments_of env h fs) as [|v vs].
    - eexists. split; [reflexivity|].
      by rewrite feeds_requested_app, Hrend.
    - match goal with
      | |- context [events_of (result_of ?t, state_of ?t, ?d)] =>
          change (events_of (result_of t, state_of t, d)) with d
      end.
      eexists. split; [reflexivity|].
      rewrite feeds_requested_app, Hrend. cbn [app].
      destruct (publish_tail env key (playlist_text (v :: vs))
                  (h ++ events_of (get_news env h fs)
                   ++ events_of (rendering env h fs))
                  (state_of (rendering env h fs)))
        as [[e Ht]|[[e Ht]|(u & removals & Ht & Hrem)]]; rewrite Ht;
        try reflexivity.
      rewrite feeds_requested_app.
      rewrite (feeds_requested_none cleanup_event removals); [done| |done].
      intros []; cbn; tauto. }
  split; [|exact Hrest].
  destruct Hrest as (rest & -> & Hnone).
  by rewrite feeds_requested_app, get_news_feeds, Hnone, app_nil_r.
Qed.
